(** * go-onvif: the SOAP request builder and dispatcher of [soap.go]

    A shallow embedding of [SOAP.createUserToken], [SOAP.createRequest] and
    [SOAP.SendRequest], together with the library operations they rely on
    (RE2 replacement, base64, SHA-1), and the properties of the envelope,
    of the WS-Security token and of the fault classification. *)

From Stdlib Require Import String Ascii List Arith Lia ZArith Bool.
Import ListNotations.
Open Scope string_scope.

(* ================================================================= *)
(** ** Go strings

    A Go [string] is a sequence of bytes; it is embedded as a Rocq
    [string], whose characters are 8-bit [ascii] values. *)

(** [s[n:]], for [n] within bounds; the whole tail is dropped beyond. *)
Fixpoint drop (n : nat) (s : string) : string :=
  match n, s with
  | S k, String _ s' => drop k s'
  | _, _ => s
  end.

(** Go raw string literals of [soap.go] contain double quotes.  They are
    written here with an apostrophe in place of every double quote (no
    literal of the source contains an apostrophe) and [lit] puts the
    double quotes back. *)
Fixpoint lit (s : string) : string :=
  match s with
  | EmptyString => EmptyString
  | String c s' =>
      String (if Ascii.eqb c "'" then ascii_of_nat 34 else c) (lit s')
  end.

Definition LF : string := String (ascii_of_nat 10) "".
Definition TAB : string := String (ascii_of_nat 9) "".

(** Is [w] a substring of [s]? (Go's [strings.Contains].) *)
Fixpoint Contains (s w : string) : bool :=
  String.prefix w s ||
  match s with
  | EmptyString => false
  | String _ s' => Contains s' w
  end.

Module regexp.

(** The class [\s] of RE2 syntax: [[\t\n\f\r ]]. *)
Definition isSpace (c : ascii) : bool :=
  match c with
  | "009"%char | "010"%char | "012"%char | "013"%char | " "%char => true
  | _ => false
  end.

(** Length of the longest prefix of [s] made of [\s] characters: what
    the greedy [\s*] consumes. *)
Fixpoint spaces (s : string) : nat :=
  match s with
  | String c s' => if isSpace c then S (spaces s') else 0
  | EmptyString => 0
  end.

(** A compiled expression, seen from the replacement loop: the length
    of the leftmost-first match that starts at the first byte of the
    remaining input, if there is one. *)
Definition Regexp := string -> option nat.

(** The part of the syntax of regular expressions that [soap.go] uses. *)
Inductive syntax : Type :=
| Literal (c : ascii)
| WhiteSpace
| Plus (sub : syntax)
| Concat (sub1 sub2 : syntax).

Fixpoint size (re : syntax) : nat :=
  match re with
  | Literal _ | WhiteSpace => 1
  | Plus sub => S (size sub)
  | Concat sub1 sub2 => S (size sub1 + size sub2)
  end.

(** Leftmost-first matching, as Perl and RE2 define it, by backtracking:
    [re] is tried at the start of [s] after [n] bytes of the match; [k]
    matches what follows [re].  A greedy [sub+] tries one more [sub]
    before it lets [k] go on.  [fuel] bounds the depth of the search. *)
Fixpoint backtrack (fuel : nat) (re : syntax) (s : string) (n : nat)
         (k : string -> nat -> option nat) : option nat :=
  match fuel with
  | 0 => None
  | S fuel =>
      match re with
      | Literal c =>
          match s with
          | String x s' => if Ascii.eqb x c then k s' (S n) else None
          | EmptyString => None
          end
      | WhiteSpace =>
          match s with
          | String x s' => if isSpace x then k s' (S n) else None
          | EmptyString => None
          end
      | Plus sub =>
          backtrack fuel sub s n
            (fun s' n' =>
               match backtrack fuel (Plus sub) s' n' k with
               | Some m => Some m
               | None => k s' n'
               end)
      | Concat sub1 sub2 =>
          backtrack fuel sub1 s n (fun s' n' => backtrack fuel sub2 s' n' k)
      end
  end.

Definition MustCompile (re : syntax) : Regexp := fun s =>
  backtrack (size re + String.length s) re s 0 (fun _ n => Some n).

(** What a greedy run of white space followed by [k] matches: the
    longest run first. *)
Fixpoint longest (k : string -> nat -> option nat) (s : string) (n : nat)
  : option nat :=
  match s with
  | String c s' =>
      if isSpace c then
        match longest k s' (S n) with
        | Some m => Some m
        | None => k s' (S n)
        end
      else None
  | EmptyString => None
  end.

(** The expression [\s+] in closed form: [MustCompile (Plus WhiteSpace)]
    is proved equal to it below. *)
Definition white : Regexp := fun s =>
  match spaces s with
  | 0 => None
  | S _ as n => Some n
  end.

(** The expression [\>\s+\<] in closed form: a [>], then the greedy run of
    white space, which must not be empty, then [<].  Giving back part
    of the run cannot help, since the byte after a shorter run is
    white space and not [<]. *)
Definition tagGap : Regexp := fun s =>
  match s with
  | String ">"%char s' =>
      match spaces s' with
      | 0 => None
      | S _ as n =>
          match drop n s' with
          | String "<"%char _ => Some (S (S n))
          | _ => None
          end
      end
  | _ => None
  end.

(** The loop of [Regexp.ReplaceAllString] for an expression that does
    not match the empty string and a replacement without [$]: scan
    from the left; at a position where the expression matches, append
    the replacement and resume after the match; elsewhere copy the
    byte.  [skip] counts the bytes of the current match still to be
    passed over. *)
Fixpoint replaceAll (re : Regexp) (repl : string) (skip : nat)
         (src : string) : string :=
  match src with
  | EmptyString => EmptyString
  | String c rest =>
      match skip with
      | S k => replaceAll re repl k rest
      | 0 =>
          match re src with
          | Some (S n) => repl ++ replaceAll re repl n rest
          | _ => String c (replaceAll re repl 0 rest)
          end
      end
  end.

Definition ReplaceAllString (re : Regexp) (src repl : string) : string :=
  replaceAll re repl 0 src.

(** A match never runs past the end of the input. *)
Definition bounded (re : Regexp) : Prop :=
  forall s n, re s = Some n -> n <= String.length s.

(** No match of [re] that starts in [a] depends on what follows [a]
    in [a ++ b]. *)
Fixpoint stable (re : Regexp) (a b : string) : Prop :=
  match a with
  | EmptyString => True
  | String _ a' => re (a ++ b) = re a /\ stable re a' b
  end.

End regexp.

(** The two statements under [// Clean request] of [createRequest]. *)
Definition clean (request : string) : string :=
  let request :=
    regexp.ReplaceAllString
      (regexp.MustCompile
         (regexp.Concat (regexp.Literal ">")
            (regexp.Concat (regexp.Plus regexp.WhiteSpace) (regexp.Literal "<"))))
      request "><" in
  let request :=
    regexp.ReplaceAllString (regexp.MustCompile (regexp.Plus regexp.WhiteSpace))
      request " " in
  request.

Definition head (s : string) : option ascii :=
  match s with
  | String c _ => Some c
  | EmptyString => None
  end.

Definition headIs (c : ascii) (s : string) : bool :=
  match head s with
  | Some x => Ascii.eqb x c
  | None => false
  end.

(** Where white space stands in a string. *)
Definition startsSpace (s : string) : bool :=
  match s with
  | String c _ => regexp.isSpace c
  | EmptyString => false
  end.

Fixpoint endsSpace (s : string) : bool :=
  match s with
  | EmptyString => false
  | String c EmptyString => regexp.isSpace c
  | String _ s' => endsSpace s'
  end.

Fixpoint noSpace (s : string) : bool :=
  match s with
  | EmptyString => true
  | String c s' => negb (regexp.isSpace c) && noSpace s'
  end.

(** No [>], white space, [<] in a row anywhere in [s]. *)
Fixpoint gapFree (s : string) : bool :=
  match s with
  | EmptyString => true
  | String _ s' =>
      match regexp.tagGap s with
      | None => gapFree s'
      | Some _ => false
      end
  end.

(** Every white-space byte of [s] is a blank, and no two are adjacent. *)
Fixpoint tidy (s : string) : bool :=
  match s with
  | EmptyString => true
  | String c s' =>
      (if regexp.isSpace c then Ascii.eqb c " " && negb (startsSpace s') else true)
      && tidy s'
  end.

(** The text [s] of the caller as cleaning leaves it where it stands
    between the [>] of one tag and the [<] of the next. *)
Definition cleanText (s : string) : string :=
  let r := clean (">" ++ s ++ "<") in
  String.substring 1 (String.length r - 2) r.

(** A string that neither starts nor ends with white space. *)
Definition solid (s : string) : Prop :=
  startsSpace s = false /\ endsSpace s = false.

Definition joined (pieces : list string) : string :=
  fold_right append "" pieces.

(** Does the byte [c] occur in [w]? *)
Fixpoint occurs (c : ascii) (w : string) : bool :=
  match w with
  | EmptyString => false
  | String x w' => Ascii.eqb x c || occurs c w'
  end.

(** A word: not empty, and without white space, [<] or [>]. *)
Fixpoint wordBytes (w : string) : bool :=
  match w with
  | EmptyString => true
  | String c w' =>
      negb (regexp.isSpace c) && negb (Ascii.eqb c "<") && negb (Ascii.eqb c ">")
      && wordBytes w'
  end.

Definition word (w : string) : bool := negb (String.eqb w "") && wordBytes w.

(** None of the texts of the caller mentions [w]. *)
Definition unmentioned (w : string) (texts : list string) : bool :=
  forallb (fun text => negb (Contains text w)) texts.

(** The bytes of [s] that are not white space, in order. *)
Fixpoint strip (s : string) : string :=
  match s with
  | EmptyString => EmptyString
  | String c s' => if regexp.isSpace c then strip s' else String c (strip s')
  end.

(** Every byte of [s] occurs in [alphabet]. *)
Fixpoint allIn (alphabet s : string) : bool :=
  match s with
  | EmptyString => true
  | String c s' => occurs c alphabet && allIn alphabet s'
  end.

Module base64.
Local Open Scope N_scope.

(** The alphabet of [base64.StdEncoding]; its padding character is [=]. *)
Definition encodeStd : string :=
  "ABCDEFGHIJKLMNOPQRSTUVWXYZabcdefghijklmnopqrstuvwxyz0123456789+/".

Definition StdPadding : ascii := "="%char.

(** [enc.encode[v]]; the index is always below 64 in [EncodeToString]. *)
Definition encode (v : N) : ascii :=
  match String.get (N.to_nat v) encodeStd with
  | Some c => c
  | None => StdPadding
  end.

Definition byte (c : ascii) : N := N_of_ascii c.

(** [StdEncoding.EncodeToString]: three source bytes give four
    characters; a remainder of one or two bytes is padded. *)
Fixpoint EncodeToString (src : string) : string :=
  match src with
  | EmptyString => EmptyString
  | String a EmptyString =>
      let val := N.shiftl (byte a) 16 in
      String (encode (N.land (N.shiftr val 18) 0x3F))
        (String (encode (N.land (N.shiftr val 12) 0x3F))
           (String StdPadding (String StdPadding EmptyString)))
  | String a (String b EmptyString) =>
      let val := N.lor (N.shiftl (byte a) 16) (N.shiftl (byte b) 8) in
      String (encode (N.land (N.shiftr val 18) 0x3F))
        (String (encode (N.land (N.shiftr val 12) 0x3F))
           (String (encode (N.land (N.shiftr val 6) 0x3F))
              (String StdPadding EmptyString)))
  | String a (String b (String c rest)) =>
      let val :=
        N.lor (N.lor (N.shiftl (byte a) 16) (N.shiftl (byte b) 8)) (byte c) in
      String (encode (N.land (N.shiftr val 18) 0x3F))
        (String (encode (N.land (N.shiftr val 12) 0x3F))
           (String (encode (N.land (N.shiftr val 6) 0x3F))
              (String (encode (N.land val 0x3F)) (EncodeToString rest))))
  end.

End base64.

Module sha1.
Local Open Scope N_scope.

(** 32-bit words are natural numbers below [2^32]; every operation
    that can leave the range is followed by [u32]. *)
Definition u32 (x : N) : N := N.land x 0xFFFFFFFF.
Definition add32 (x y : N) : N := u32 (x + y).
Definition not32 (x : N) : N := N.lxor x 0xFFFFFFFF.
Definition RotateLeft32 (x : N) (k : N) : N :=
  u32 (N.lor (N.shiftl x k) (N.shiftr x (32 - k))).

Definition init : N * N * N * N * N :=
  (0x67452301, 0xEFCDAB89, 0x98BADCFE, 0x10325476, 0xC3D2E1F0).
Definition K0 : N := 0x5A827999.
Definition K1 : N := 0x6ED9EBA1.
Definition K2 : N := 0x8F1BBCDC.
Definition K3 : N := 0xCA62C1D6.

(** Padding of [digest.checkSum]: a byte [0x80], zero bytes up to 56
    modulo 64, then the length in bits as a big-endian 64-bit word. *)
Definition PutUint64 (v : N) : list N :=
  map (fun i => N.land (N.shiftr v (8 * i)) 0xFF) [7; 6; 5; 4; 3; 2; 1; 0].

Definition padding (len : N) : list N :=
  let t := if len mod 64 <? 56 then 56 - len mod 64 else 64 + 56 - len mod 64 in
  (0x80 :: repeat 0 (N.to_nat t - 1)
     ++ PutUint64 (N.land (N.shiftl len 3) 0xFFFFFFFFFFFFFFFF))%list.

(** The sixteen big-endian words of a 64-byte chunk [p]. *)
Fixpoint words (n : nat) (p : list N) : list N :=
  match n, p with
  | S k, b0 :: b1 :: b2 :: b3 :: p' =>
      N.lor (N.lor (N.lor (N.shiftl b0 24) (N.shiftl b1 16)) (N.shiftl b2 8)) b3
      :: words k p'
  | _, _ => []
  end.

(** The message schedule: [w] holds the words [0 .. i-1], the last
    one first, and [n] more are to come. *)
Fixpoint schedule (n : nat) (w : list N) : list N :=
  match n with
  | O => rev w
  | S k =>
      let tmp :=
        N.lxor (N.lxor (N.lxor (nth 2 w 0) (nth 7 w 0)) (nth 13 w 0)) (nth 15 w 0) in
      schedule k (RotateLeft32 tmp 1 :: w)
  end.

Definition round (i : nat) (wi : N) (s : N * N * N * N * N) : N * N * N * N * N :=
  let '(a, b, c, d, e) := s in
  let '(f, k) :=
    if Nat.ltb i 20 then (N.lor (N.land b c) (N.land (not32 b) d), K0)
    else if Nat.ltb i 40 then (N.lxor (N.lxor b c) d, K1)
    else if Nat.ltb i 60 then (N.lor (N.land (N.lor b c) d) (N.land b c), K2)
    else (N.lxor (N.lxor b c) d, K3) in
  let t := add32 (add32 (add32 (add32 (RotateLeft32 a 5) f) e) wi) k in
  (t, a, RotateLeft32 b 30, c, d).

Fixpoint rounds (i : nat) (w : list N) (s : N * N * N * N * N) : N * N * N * N * N :=
  match w with
  | [] => s
  | wi :: w' => rounds (S i) w' (round i wi s)
  end.

(** [blockGeneric] on one chunk. *)
Definition block (h : N * N * N * N * N) (p : list N) : N * N * N * N * N :=
  let '(h0, h1, h2, h3, h4) := h in
  let w := schedule 64 (rev (words 16 p)) in
  let '(a, b, c, d, e) := rounds 0 w h in
  (add32 h0 a, add32 h1 b, add32 h2 c, add32 h3 d, add32 h4 e).

(** All the chunks of a padded message, [n] at most. *)
Fixpoint blocks (n : nat) (h : N * N * N * N * N) (p : list N) : N * N * N * N * N :=
  match n with
  | O => h
  | S k =>
      match p with
      | [] => h
      | _ => blocks k (block h (firstn 64 p)) (skipn 64 p)
      end
  end.

Definition PutUint32 (v : N) : list N :=
  map (fun i => N.land (N.shiftr v (8 * i)) 0xFF) [3; 2; 1; 0].

Definition bytes (s : string) : list N := map N_of_ascii (list_ascii_of_string s).
Definition text (p : list N) : string := string_of_list_ascii (map ascii_of_N p).

(** [h := sha1.New(); h.Write(data); h.Sum(nil)], as a byte string. *)
Definition Sum (data : string) : string :=
  let p := bytes data in
  let len := N.of_nat (List.length p) in
  let padded := (p ++ padding len)%list in
  let '(h0, h1, h2, h3, h4) :=
    blocks (List.length padded) init padded in
  text (PutUint32 h0 ++ PutUint32 h1 ++ PutUint32 h2 ++ PutUint32 h3
          ++ PutUint32 h4)%list.

End sha1.

Module hex.
Definition hextable : string := "0123456789abcdef".
Definition digit (v : N) : ascii :=
  match String.get (N.to_nat v) hextable with Some c => c | None => "0"%char end.
(** [hex.EncodeToString]. *)
Fixpoint EncodeToString (src : string) : string :=
  match src with
  | EmptyString => EmptyString
  | String c rest =>
      String (digit (N.shiftr (N_of_ascii c) 4))
        (String (digit (N.land (N_of_ascii c) 0x0F)) (EncodeToString rest))
  end.
End hex.

(* ================================================================= *)
(** ** Collaborators outside the repository *)

Module time.

(** [time.Duration]: a signed 64-bit count of nanoseconds. *)
Definition Duration := Z.

Definition RFC3339 : string := "2006-01-02T15:04:05Z07:00".

(** The operations of package [time] that [createUserToken] calls on
    a [time.Time].  The package is not part of the repository: the
    program is verified against this interface. *)
Class Pkg : Type := {
  Time : Type;
  IsZero : Time -> bool;
  Add : Time -> Duration -> Time;
  UTC : Time -> Time;
  Format : Time -> string -> string
}.

End time.

(** Go's [error] values, identified with the text of their [Error()]. *)
Record error : Type := mkError { Error : string }.

Module errors.
Definition New (text : string) : error := mkError text.
End errors.

(** A library call of type [(T, error)] whose value the caller uses only
    after it has found the error [nil]. *)
Inductive result (T : Type) : Type :=
| Ok (v : T)
| Err (err : error).
Arguments Ok {T} v.
Arguments Err {T} err.

Module url.

Record Userinfo : Type := {
  username : string;
  password : string;
  passwordSet : bool
}.

Definition UserPassword (username password : string) : Userinfo :=
  {| username := username; password := password; passwordSet := true |}.

Record URL : Type := {
  Scheme : string;
  User : option Userinfo;
  Host : string;
  Path : string;
  RawQuery : string;
  Fragment : string
}.

Definition setUser (u : URL) (info : Userinfo) : URL :=
  {| Scheme := Scheme u; User := Some info; Host := Host u; Path := Path u;
     RawQuery := RawQuery u; Fragment := Fragment u |}.

End url.

Module http.

(** [http.Header], with the single value per key that [Set] leaves. *)
Definition Header := list (string * string).

Fixpoint Set_ (h : Header) (key value : string) : Header :=
  match h with
  | [] => [(key, value)]
  | (k, v) :: h' =>
      if String.eqb k key then (key, value) :: h' else (k, v) :: Set_ h' key value
  end.

Record Request : Type := {
  Method : string;
  URL : string;
  Header_ : Header;
  Body : string
}.

Definition setHeader (req : Request) (key value : string) : Request :=
  {| Method := Method req; URL := URL req;
     Header_ := Set_ (Header_ req) key value; Body := Body req |}.

End http.

(** What a call of [SendRequest] does to the outside, in order. *)
Inductive Event : Type :=
| Log (msg : string)
| NewRequest (method target : string)
| RoundTrip (req : http.Request)
| ReadAll
| Close.

(** A Go function body: the events so far, and either the values of a
    [return] statement that has been executed or the value the next
    statement goes on with. *)
Inductive Flow (R A : Type) : Type :=
| Return (r : R)
| Next (a : A).
Arguments Return {R A} r.
Arguments Next {R A} a.

Definition Exec (R A : Type) : Type := (list Event * Flow R A)%type.

Definition bind {R A B : Type} (m : Exec R A) (k : A -> Exec R B) : Exec R B :=
  match m with
  | (t, Return r) => (t, Return r)
  | (t, Next a) => let '(t', f) := k a in ((t ++ t')%list, f)
  end.

Definition step {R A : Type} (a : A) : Exec R A := ([], Next a).
Definition emit {R : Type} (e : Event) : Exec R unit := ([e], Next tt).
Definition when {R : Type} (b : bool) (m : Exec R unit) : Exec R unit :=
  if b then m else step tt.

(** [v, err := call; if err != nil { return onErr(err) }]. *)
Definition check {R A : Type} (call : result A) (onErr : error -> R) : Exec R A :=
  match call with
  | Ok v => step v
  | Err err => ([], Return (onErr err))
  end.

(** [defer e]: the event [e] happens when the rest of the body is left. *)
Definition defer {R A : Type} (e : Event) (rest : Exec R A) : Exec R A :=
  let '(t, f) := rest in ((t ++ [e])%list, f).

Definition run {R : Type} (body : Exec R R) : list Event * R :=
  match body with
  | (t, Return r) => (t, r)
  | (t, Next r) => (t, r)
  end.

Declare Scope exec_scope.
Delimit Scope exec_scope with exec.
Notation "x <- m ;; k" := (bind m (fun x => k))
  (at level 61, m at next level, right associativity) : exec_scope.
Notation "m ;; k" := (bind m (fun _ => k))
  (at level 61, right associativity) : exec_scope.

(* ================================================================= *)
(** ** [soap.go] *)

Section Soap.

Context {tm : time.Pkg}.

(** [type SOAP struct]. *)
Record SOAP : Type := {
  Body : string;
  XMLNs : list string;
  User : string;
  Password : string;
  TokenAge : time.Duration;
  Action : string;
  NoDebug : bool;
  CameraTime : time.Time
}.

(** What one call of [createRequest] takes from its environment: the
    text of a fresh random UUID, [uuid.New().String()], and the
    reading of the local clock, [time.Now()]. *)
Record Env : Type := {
  uuid_New : string;
  time_Now : time.Time
}.

Definition nonempty (s : string) : bool := negb (String.eqb s "").

Definition createUserToken (soap : SOAP) (env : Env) : string :=
  let nonce := uuid_New env in
  let nonce64 := base64.EncodeToString nonce in
  let timestamp :=
    if negb (time.IsZero (CameraTime soap)) then
      time.Format (time.UTC (time.Add (CameraTime soap) (TokenAge soap))) time.RFC3339
    else
      time.Format (time.UTC (time.Add (time_Now env) (TokenAge soap))) time.RFC3339 in
  let token := (nonce ++ timestamp) ++ Password soap in
  let shaToken := sha1.Sum token in
  let shaDigest64 := base64.EncodeToString shaToken in
  (((((((((lit "<Security s:mustUnderstand='1' xmlns='http://docs.oasis-open.org/wss/2004/01/oasis-200401-wss-wssecurity-secext-1.0.xsd'>"
            ++ LF ++ "  " ++ TAB ++ TAB ++ "<UsernameToken>"
            ++ LF ++ "    " ++ TAB ++ TAB ++ "<Username>")
   ++ User soap)
   ++ ("</Username>"
         ++ LF ++ "    " ++ TAB ++ TAB
         ++ lit "<Password Type='http://docs.oasis-open.org/wss/2004/01/oasis-200401-wss-username-token-profile-1.0#PasswordDigest'>"))
   ++ shaDigest64)
   ++ ("</Password>"
         ++ LF ++ "    " ++ TAB ++ TAB
         ++ lit "<Nonce EncodingType='http://docs.oasis-open.org/wss/2004/01/oasis-200401-wss-soap-message-security-1.0#Base64Binary'>"))
   ++ nonce64)
   ++ ("</Nonce>"
         ++ LF ++ "    " ++ TAB ++ TAB
         ++ lit "<Created xmlns='http://docs.oasis-open.org/wss/2004/01/oasis-200401-wss-wssecurity-utility-1.0.xsd'>"))
   ++ timestamp)
   ++ ("</Created>"
         ++ LF ++ TAB ++ TAB ++ "</UsernameToken>"
         ++ LF ++ TAB ++ "</Security>")).

Definition createRequest (soap : SOAP) (env : Env) : string :=
  (* Create request envelope *)
  let request := lit "<?xml version='1.0' encoding='UTF-8'?>" in
  let request := request ++ lit "<s:Envelope xmlns:s='http://www.w3.org/2003/05/soap-envelope'" in
  (* Set XML namespace *)
  let request :=
    fold_left (fun request namespace => request ++ (" " ++ namespace))
              (XMLNs soap) request in
  let request := request ++ ">" in
  (* Set request header *)
  let request :=
    if nonempty (Action soap) || nonempty (User soap) then
      let request := request ++ "<s:Header>" in
      let request :=
        if nonempty (Action soap) then
          request ++ ((lit "<Action mustUnderstand='1'" ++ LF
                       ++ TAB ++ TAB ++ TAB ++ TAB ++ TAB ++ TAB ++ TAB
                       ++ lit "   xmlns='http://www.w3.org/2005/08/addressing'>")
                      ++ Action soap) ++ "</Action>"
        else request in
      let request :=
        if nonempty (User soap) then request ++ createUserToken soap env
        else request in
      request ++ "</s:Header>"
    else request in
  (* Set request body *)
  let request := request ++ ("<s:Body>" ++ Body soap) ++ "</s:Body>" in
  (* Close request envelope *)
  let request := request ++ "</s:Envelope>" in
  (* Clean request *)
  clean request.

(** The collaborators of [SendRequest]: the URL parser and printer of
    [net/url], the Digest transport, the reader of the response body
    and the XML-to-tree parser with its path lookup.  [Map] is the
    type of the trees the parser builds; a Go value of type [mxj.Map]
    is [None] when it is [nil]. *)
Record World : Type := {
  Response : Type;
  Map : Type;
  url_Parse : string -> result url.URL;
  url_String : url.URL -> string;
  digest_RoundTrip : string -> string -> http.Request -> result Response;
  ioutil_ReadAll : Response -> result string;
  mxj_NewMapXml : string -> option Map * option error;
  mxj_ValueForPathString : option Map -> string -> string * option error
}.

(** [http.NewRequest(method, url, body)] for a valid method: the
    target is parsed again, and a request without header fields is
    made. *)
Definition http_NewRequest (w : World) (method target body : string)
  : result http.Request :=
  match url_Parse w target with
  | Err err => Err err
  | Ok _ =>
      Ok {| http.Method := method; http.URL := target;
            http.Header_ := []; http.Body := body |}
  end.

(** [mxj.NewMapXml] followed by [if err != nil { return nil, err }]. *)
Definition checkMap {R : Type} (w : World) (call : option (Map w) * option error)
           (onErr : error -> R) : Exec R (option (Map w)) :=
  match call with
  | (_, Some err) => ([], Return (onErr err))
  | (mapXML, None) => step mapXML
  end.

Definition SendRequest (w : World) (env : Env) (soap : SOAP) (xaddr : string)
  : list Event * (option (Map w) * option error) :=
  run (
    (* Create SOAP request *)
    let request := createRequest soap env in
    (* Make sure URL valid and add authentication in xAddr *)
    urlXAddr <- check (url_Parse w xaddr) (fun err => (None, Some err)) ;;
    let urlXAddr :=
      if nonempty (User soap)
      then url.setUser urlXAddr (url.UserPassword (User soap) (Password soap))
      else urlXAddr in
    when (negb (NoDebug soap)) (emit (Log request)) ;;
    (* Create HTTP request *)
    emit (NewRequest "POST" (url_String w urlXAddr)) ;;
    req <- check (http_NewRequest w "POST" (url_String w urlXAddr) request)
                 (fun err => (None, Some err)) ;;
    let req := http.setHeader req "Content-Type" "application/soap+xml" in
    let req := http.setHeader req "Charset" "utf-8" in
    (* Send request *)
    emit (RoundTrip req) ;;
    resp <- check (digest_RoundTrip w (User soap) (Password soap) req)
                  (fun err => (None, Some err)) ;;
    defer Close (
      (* Read response body *)
      emit ReadAll ;;
      responseBody <- check (ioutil_ReadAll w resp) (fun err => (None, Some err)) ;;
      when (negb (NoDebug soap)) (emit (Log ("Onvif response: " ++ responseBody))) ;;
      (* Parse XML to map *)
      mapXML <- checkMap w (mxj_NewMapXml w responseBody) (fun err => (None, Some err)) ;;
      (* Check if SOAP returns fault *)
      let fault := fst (mxj_ValueForPathString w mapXML "Envelope.Body.Fault.Reason.Text.#text") in
      if nonempty fault then (([], Return (None, Some (errors.New fault))) : Exec _ _)
      else
        let fault := fst (mxj_ValueForPathString w mapXML "Envelope.Body.Fault.faultstring") in
        if nonempty fault then ([], Return (None, Some (errors.New fault)))
        else ([], Return (mapXML, None))
    )
  )%exec.

End Soap.

(* ================================================================= *)
(** ** Views of [soap.go] *)

Section Views.

Context {tm : time.Pkg}.

(** The request as [createRequest] has it when it reaches
    [// Clean request]: the statements of [createRequest] but the last
    two. *)
Definition uncleaned (soap : SOAP) (env : Env) : string :=
  (* Create request envelope *)
  let request := lit "<?xml version='1.0' encoding='UTF-8'?>" in
  let request := request ++ lit "<s:Envelope xmlns:s='http://www.w3.org/2003/05/soap-envelope'" in
  (* Set XML namespace *)
  let request :=
    fold_left (fun request namespace => request ++ (" " ++ namespace))
              (XMLNs soap) request in
  let request := request ++ ">" in
  (* Set request header *)
  let request :=
    if nonempty (Action soap) || nonempty (User soap) then
      let request := request ++ "<s:Header>" in
      let request :=
        if nonempty (Action soap) then
          request ++ ((lit "<Action mustUnderstand='1'" ++ LF
                       ++ TAB ++ TAB ++ TAB ++ TAB ++ TAB ++ TAB ++ TAB
                       ++ lit "   xmlns='http://www.w3.org/2005/08/addressing'>")
                      ++ Action soap) ++ "</Action>"
        else request in
      let request :=
        if nonempty (User soap) then request ++ createUserToken soap env
        else request in
      request ++ "</s:Header>"
    else request in
  (* Set request body *)
  let request := request ++ ("<s:Body>" ++ Body soap) ++ "</s:Body>" in
  (* Close request envelope *)
  request ++ "</s:Envelope>".

(** The descriptor [soap] with its field [NoDebug] set to [flag]. *)
Definition withNoDebug (flag : bool) (soap : SOAP) : SOAP :=
  {| Body := Body soap; XMLNs := XMLNs soap; User := User soap;
     Password := Password soap; TokenAge := TokenAge soap; Action := Action soap;
     NoDebug := flag; CameraTime := CameraTime soap |}.

End Views.

(** The calls of [glog] among the events of a call, and the others. *)
Definition isLog (e : Event) : bool :=
  match e with
  | Log _ => true
  | _ => false
  end.

Definition logs (trace : list Event) : list Event := filter isLog trace.

Definition network (trace : list Event) : list Event :=
  filter (fun e => negb (isLog e)) trace.

(* ================================================================= *)
(** ** The elements as they stand in a built envelope *)

Module wire.

Definition Action (text : string) : string :=
  lit "<Action mustUnderstand='1' xmlns='http://www.w3.org/2005/08/addressing'>"
  ++ text ++ "</Action>".

Definition Security (username digest nonce64 created : string) : string :=
  lit "<Security s:mustUnderstand='1' xmlns='http://docs.oasis-open.org/wss/2004/01/oasis-200401-wss-wssecurity-secext-1.0.xsd'>"
  ++ "<UsernameToken>"
  ++ "<Username>" ++ username ++ "</Username>"
  ++ lit "<Password Type='http://docs.oasis-open.org/wss/2004/01/oasis-200401-wss-username-token-profile-1.0#PasswordDigest'>"
  ++ digest ++ "</Password>"
  ++ lit "<Nonce EncodingType='http://docs.oasis-open.org/wss/2004/01/oasis-200401-wss-soap-message-security-1.0#Base64Binary'>"
  ++ nonce64 ++ "</Nonce>"
  ++ lit "<Created xmlns='http://docs.oasis-open.org/wss/2004/01/oasis-200401-wss-wssecurity-utility-1.0.xsd'>"
  ++ created ++ "</Created>"
  ++ "</UsernameToken>"
  ++ "</Security>".

Definition Body (text : string) : string := "<s:Body>" ++ text ++ "</s:Body>".

(** The XML declaration and the open tag of the envelope with the
    namespace declarations of the caller, before cleaning. *)
Definition open (namespaces : list string) : string :=
  lit "<?xml version='1.0' encoding='UTF-8'?>"
  ++ lit "<s:Envelope xmlns:s='http://www.w3.org/2003/05/soap-envelope'"
  ++ fold_right (fun namespace rest => " " ++ namespace ++ rest) "" namespaces
  ++ ">".


(** The XML declaration and the start of the open tag of the envelope,
    the two literals that [createRequest] starts with. *)
Definition prolog : string :=
  lit "<?xml version='1.0' encoding='UTF-8'?>"
  ++ lit "<s:Envelope xmlns:s='http://www.w3.org/2003/05/soap-envelope'".

End wire.

(* ================================================================= *)
(** ** A reference instance of the collaborators

    A calendar for the years 1 to 9999, a URL parser that refuses
    control characters, and a camera that answers from a table.  They
    show that the interfaces above are inhabited and let the program
    run on concrete inputs. *)

Module Reference.
Local Open Scope Z_scope.

(** An instant: seconds and nanoseconds since 0001-01-01T00:00:00Z. *)
Record Instant : Type := { sec : Z; nsec : Z }.

Definition isZero (t : Instant) : bool := (sec t =? 0) && (nsec t =? 0).

Definition add (t : Instant) (d : time.Duration) : Instant :=
  let dsec := Z.quot d 1000000000 in
  let n := nsec t + Z.rem d 1000000000 in
  if 1000000000 <=? n then {| sec := sec t + dsec + 1; nsec := n - 1000000000 |}
  else if n <? 0 then {| sec := sec t + dsec - 1; nsec := n + 1000000000 |}
  else {| sec := sec t + dsec; nsec := n |}.

Definition digit (k : Z) : ascii := ascii_of_nat (48 + Z.to_nat (k mod 10)).
Definition d2 (k : Z) : string := String (digit (k / 10)) (String (digit k) "").
Definition d4 (k : Z) : string := (d2 (k / 100) ++ d2 k)%string.

Definition isLeap (y : Z) : bool :=
  (y mod 4 =? 0) && (negb (y mod 100 =? 0) || (y mod 400 =? 0)).

(** Year and day of the year (from 0) of a day counted from 0001-01-01. *)
Definition yearOf (day : Z) : Z * Z :=
  let n400 := day / 146097 in
  let d := day mod 146097 in
  let n100 := Z.min (d / 36524) 3 in
  let d := d - n100 * 36524 in
  let n4 := d / 1461 in
  let d := d mod 1461 in
  let n1 := Z.min (d / 365) 3 in
  (400 * n400 + 100 * n100 + 4 * n4 + n1 + 1, d - n1 * 365).

Fixpoint monthOf (lengths : list Z) (m yday : Z) : Z * Z :=
  match lengths with
  | [] => (m, yday + 1)
  | len :: rest => if yday <? len then (m, yday + 1) else monthOf rest (m + 1) (yday - len)
  end.

Definition rfc3339 (t : Instant) : string :=
  let '(year, yday) := yearOf (sec t / 86400) in
  let feb := if isLeap year then 29 else 28 in
  let '(month, day) := monthOf [31; feb; 31; 30; 31; 30; 31; 31; 30; 31; 30] 1 yday in
  let s := sec t mod 86400 in
  (d4 year ++ "-" ++ d2 month ++ "-" ++ d2 day ++ "T"
     ++ d2 (s / 3600) ++ ":" ++ d2 (s / 60 mod 60) ++ ":" ++ d2 (s mod 60) ++ "Z")%string.

Definition clock : time.Pkg :=
  {| time.Time := Instant;
     time.IsZero := isZero;
     time.Add := add;
     time.UTC := fun t => t;
     time.Format := fun t _ => rfc3339 t |}.

Definition zeroTime : Instant := {| sec := 0; nsec := 0 |}.
Definition Unix (s : Z) : Instant := {| sec := 62135596800 + s; nsec := 0 |}.

(** [url.Parse] fails on ASCII control characters, and here on
    nothing else. *)
Fixpoint hasCTL (s : string) : bool :=
  match s with
  | EmptyString => false
  | String c s' => (N_of_ascii c <? 32)%N || (N_of_ascii c =? 127)%N || hasCTL s'
  end.

Definition parse (rawURL : string) : result url.URL :=
  if hasCTL rawURL
  then Err (mkError ("parse " ++ rawURL ++ ": net/url: invalid control character in URL"))
  else Ok {| url.Scheme := ""; url.User := None; url.Host := ""; url.Path := rawURL;
             url.RawQuery := ""; url.Fragment := "" |}.

(** A parsed response: the texts found at the dotted paths. *)
Definition Tree := list (string * string).

Fixpoint lookup (t : Tree) (path : string) : string * option error :=
  match t with
  | [] => (EmptyString, Some (mkError "ValueForPath: path not found"))
  | (p, v) :: t' => if String.eqb p path then (v, None) else lookup t' path
  end.

(** A camera whose answer to every request is the body [answer]; the
    parser reads [answer] as a table [path=text;...] when it is given
    one in [trees], and fails otherwise. *)
Definition camera (trees : list (string * Tree)) (answer : string) : World :=
  {| Response := string;
     Map := Tree;
     url_Parse := parse;
     url_String := url.Path;
     digest_RoundTrip := fun _ _ _ => Ok answer;
     ioutil_ReadAll := fun resp => Ok resp;
     mxj_NewMapXml := fun doc =>
       match find (fun e => String.eqb (fst e) doc) trees with
       | Some (_, t) => (Some t, None)
       | None => (None, Some (mkError "xml.Decoder.Token() - XML syntax error"))
       end;
     mxj_ValueForPathString := fun m path =>
       match m with
       | Some t => lookup t path
       | None => (EmptyString, Some (mkError "ValueForPath: path not found"))
       end |}.

Definition env (now : Instant) : @Env clock :=
  @Build_Env clock "f47ac10b-58cc-4372-a567-0e02b2c3d479" now.

Definition anonymous (body : string) : @SOAP clock :=
  @Build_SOAP clock body [] "" "" 0 "" true zeroTime.

Definition admin (body action : string) (cameraTime : Instant) : @SOAP clock :=
  @Build_SOAP clock body
    [lit "xmlns:tds='http://www.onvif.org/ver10/device/wsdl'"]
    "admin" "pass" 0 action true cameraTime.

(** Responses of a camera: a SOAP 1.2 fault that also carries the
    SOAP 1.1 text, a SOAP 1.1 fault, and an answer without fault. *)
Definition fault12 : Tree :=
  [("Envelope.Body.Fault.Reason.Text.#text", "Sender not Authorized");
   ("Envelope.Body.Fault.faultstring", "NotAuthorized")].

Definition fault11 : Tree :=
  [("Envelope.Body.Fault.faultstring", "NotAuthorized")].

Definition information : Tree :=
  [("Envelope.Body.GetDeviceInformationResponse.Manufacturer", "ACME")].

Definition answers : list (string * Tree) :=
  [("<fault12/>", fault12); ("<fault11/>", fault11); ("<information/>", information)].

Definition address : string := "http://192.168.0.10/onvif/device_service".

(** The request of the end-to-end scenario, with a camera time. *)
Definition getInformation : @SOAP clock :=
  admin "<tds:GetDeviceInformation/>" "" (Unix 1709210096).


(** A camera that cannot be reached, and one whose answer breaks off
    while it is read. *)
Definition unreachable : World :=
  {| Response := string;
     Map := Tree;
     url_Parse := parse;
     url_String := url.Path;
     digest_RoundTrip := fun _ _ _ =>
       Err (mkError "dial tcp 192.168.0.10:80: i/o timeout");
     ioutil_ReadAll := fun resp => Ok resp;
     mxj_NewMapXml := fun _ => (None, Some (mkError "EOF"));
     mxj_ValueForPathString := fun _ _ =>
       (EmptyString, Some (mkError "ValueForPath: path not found")) |}.

Definition interrupted : World :=
  {| Response := string;
     Map := Tree;
     url_Parse := parse;
     url_String := url.Path;
     digest_RoundTrip := fun _ _ _ => Ok EmptyString;
     ioutil_ReadAll := fun _ => Err (mkError "unexpected EOF");
     mxj_NewMapXml := fun _ => (None, Some (mkError "EOF"));
     mxj_ValueForPathString := fun _ _ =>
       (EmptyString, Some (mkError "ValueForPath: path not found")) |}.

(** The address of the end-to-end scenario, parsed. *)
Definition endpoint : url.URL :=
  {| url.Scheme := ""; url.User := None; url.Host := ""; url.Path := address;
     url.RawQuery := ""; url.Fragment := "" |}.

End Reference.

(* ================================================================= *)
(** ** Test vectors *)

Example sha1_abc : hex.EncodeToString (sha1.Sum "abc") = "a9993e364706816aba3e25717850c26c9cd0d89d".
Proof. vm_compute. reflexivity. Qed.
Example sha1_empty : hex.EncodeToString (sha1.Sum "") = "da39a3ee5e6b4b0d3255bfef95601890afd80709".
Proof. vm_compute. reflexivity. Qed.
Example sha1_long : hex.EncodeToString (sha1.Sum "abcdbcdecdefdefgefghfghighijhijkijkljklmklmnlmnomnopnopq") = "84983e441c3bd26ebaae4aa1f95129e5e54670f1".
Proof. vm_compute. reflexivity. Qed.
Example b64_1 : base64.EncodeToString "foobar" = "Zm9vYmFy". Proof. reflexivity. Qed.
Example b64_2 : base64.EncodeToString "fooba" = "Zm9vYmE=". Proof. reflexivity. Qed.
Example b64_3 : base64.EncodeToString "foob" = "Zm9vYg==". Proof. reflexivity. Qed.

Example rfc_epoch : Reference.rfc3339 (Reference.Unix 0) = "1970-01-01T00:00:00Z".
Proof. vm_compute. reflexivity. Qed.
Example rfc_leap : Reference.rfc3339 (Reference.Unix 1709210096) = "2024-02-29T12:34:56Z".
Proof. vm_compute. reflexivity. Qed.
Example rfc_eoy : Reference.rfc3339 (Reference.Unix 1735689599) = "2024-12-31T23:59:59Z".
Proof. vm_compute. reflexivity. Qed.
Example rfc_zero : Reference.rfc3339 Reference.zeroTime = "0001-01-01T00:00:00Z".
Proof. vm_compute. reflexivity. Qed.

(* ================================================================= *)
(** ** Strings *)

Lemma append_assoc (a b c : string) : (a ++ b) ++ c = a ++ b ++ c.
Proof. induction a as [|x a IH]; simpl; [reflexivity | now rewrite IH]. Qed.

Lemma append_nil_r (a : string) : a ++ "" = a.
Proof. induction a as [|x a IH]; simpl; [reflexivity | now rewrite IH]. Qed.

Lemma length_append (a b : string) :
  String.length (a ++ b) = String.length a + String.length b.
Proof. induction a as [|x a IH]; simpl; [reflexivity | now rewrite IH]. Qed.

Lemma drop_0 (s : string) : drop 0 s = s.
Proof. now destruct s. Qed.

Lemma drop_append (n : nat) (a b : string) :
  n <= String.length a -> drop n (a ++ b) = drop n a ++ b.
Proof.
  revert a; induction n as [|n IH]; intros a Hn.
  - now rewrite !drop_0.
  - destruct a as [|x a]; simpl in *; [lia | apply IH; lia].
Qed.

Lemma drop_length_append (a b : string) : drop (String.length a) (a ++ b) = b.
Proof. induction a as [|x a IH]; simpl; [apply drop_0 | exact IH]. Qed.

Lemma prefix_append (w s : string) : String.prefix w (w ++ s) = true.
Proof.
  induction w as [|x w IH]; simpl; [now destruct s|].
  destruct (ascii_dec x x); [exact IH | congruence].
Qed.

Lemma Contains_prefix (s w : string) : String.prefix w s = true -> Contains s w = true.
Proof. intros H. destruct s; cbn [Contains]; rewrite H; reflexivity. Qed.

Lemma Contains_append (pre w post : string) : Contains (pre ++ w ++ post) w = true.
Proof.
  induction pre as [|x pre IH].
  - cbn [append]. apply Contains_prefix. apply prefix_append.
  - cbn [append Contains]. rewrite IH. apply orb_true_r.
Qed.

Lemma fold_namespaces (ns : list string) (request : string) :
  fold_left (fun request namespace => request ++ (" " ++ namespace)) ns request
  = request ++ fold_right (fun namespace rest => " " ++ namespace ++ rest) "" ns.
Proof.
  revert request; induction ns as [|n ns IH]; intros request; simpl.
  - now rewrite append_nil_r.
  - rewrite IH, append_assoc. reflexivity.
Qed.

(* ================================================================= *)
(** ** The replacement loop *)

Module regexpFacts.
Import regexp.

Lemma spaces_le (s : string) : spaces s <= String.length s.
Proof.
  induction s as [|c s IH]; simpl; [lia|].
  destruct (isSpace c); lia.
Qed.

Lemma spaces_append (a b : string) :
  startsSpace b = false -> spaces (a ++ b) = spaces a.
Proof.
  intros Hb. induction a as [|c a IH]; simpl.
  - destruct b as [|x b]; simpl in *; [reflexivity | now rewrite Hb].
  - destruct (isSpace c); [now rewrite IH | reflexivity].
Qed.

Lemma spaces_0 (s : string) : startsSpace s = false -> spaces s = 0.
Proof. destruct s as [|c s]; simpl; [reflexivity | now intros ->]. Qed.

Lemma startsSpace_drop_spaces (s : string) : startsSpace (drop (spaces s) s) = false.
Proof.
  induction s as [|c s IH]; simpl; [reflexivity|].
  destruct (isSpace c) eqn:E; simpl; [exact IH | exact E].
Qed.

Lemma white_bounded : bounded white.
Proof.
  intros s n. unfold white. pose proof (spaces_le s).
  destruct (spaces s); [discriminate | intros [= <-]; assumption].
Qed.

Lemma tagGap_bounded : bounded tagGap.
Proof.
  intros s n. unfold tagGap.
  destruct s as [|c s]; [discriminate|].
  destruct (Ascii.eqb_spec c ">") as [->|Hc].
  - destruct (spaces s) as [|k] eqn:Ek; [discriminate|].
    destruct (drop (S k) s) as [|x r] eqn:Ed; [discriminate|].
    assert (S k < String.length s).
    { pose proof (spaces_le s). rewrite Ek in H.
      destruct (Nat.eq_dec (S k) (String.length s)) as [e|]; [|lia].
      pose proof (drop_length_append s "") as D.
      rewrite append_nil_r, <- e, Ed in D. discriminate. }
    destruct (Ascii.eqb_spec x "<") as [->|Hx].
    + intros [= <-]. simpl. lia.
    + destruct x as [[] [] [] [] [] [] [] []]; try discriminate; congruence.
  - destruct c as [[] [] [] [] [] [] [] []]; try discriminate; congruence.
Qed.

(** Passing over [k] bytes of a match is resuming [k] bytes further. *)
Lemma replaceAll_skip (re : Regexp) (repl : string) (k : nat) (s : string) :
  replaceAll re repl k s = replaceAll re repl 0 (drop k s).
Proof.
  revert s; induction k as [|k IH]; intros s.
  - now rewrite drop_0.
  - destruct s as [|c s]; simpl; [reflexivity | apply IH].
Qed.

Lemma replaceAll_past (re : Regexp) (repl : string) (k : nat) (s : string) :
  String.length s <= k -> replaceAll re repl k s = "".
Proof.
  revert k; induction s as [|c s IH]; intros k Hk; simpl; [reflexivity|].
  destruct k; simpl in Hk; [lia | apply IH; lia].
Qed.

Lemma Replace_copy (re : Regexp) (repl : string) (c : ascii) (s : string) :
  re (String c s) = None ->
  ReplaceAllString re (String c s) repl = String c (ReplaceAllString re s repl).
Proof. unfold ReplaceAllString; cbn [replaceAll]; now intros ->. Qed.

Lemma Replace_match (re : Regexp) (repl : string) (c : ascii) (s : string) (n : nat) :
  re (String c s) = Some (S n) ->
  ReplaceAllString re (String c s) repl = repl ++ ReplaceAllString re (drop n s) repl.
Proof.
  unfold ReplaceAllString; cbn [replaceAll]; intros ->.
  now rewrite replaceAll_skip.
Qed.

End regexpFacts.

(* ================================================================= *)
(** ** The two replacements of [clean] *)

Module cleanFacts.
Import regexp regexpFacts.

Local Notation "'closeGaps' s" := (ReplaceAllString tagGap s "><")
  (at level 10, s at level 9).
Local Notation "'collapse' s" := (ReplaceAllString white s " ")
  (at level 10, s at level 9).

Lemma startsSpace_head (s t : string) : head s = head t -> startsSpace s = startsSpace t.
Proof. destruct s, t; simpl; congruence. Qed.

Lemma headIs_head (c : ascii) (s t : string) : head s = head t -> headIs c s = headIs c t.
Proof. unfold headIs. now intros ->. Qed.

Lemma head_append (a b : string) : a <> "" -> head (a ++ b) = head a.
Proof. destruct a; [congruence | reflexivity]. Qed.

(** *** The two expressions, one byte at a time *)

Lemma white_space (c : ascii) (s : string) :
  isSpace c = true -> white (String c s) = Some (S (spaces s)).
Proof. unfold white; simpl; now intros ->. Qed.

Lemma white_other (c : ascii) (s : string) :
  isSpace c = false -> white (String c s) = None.
Proof. unfold white; simpl; now intros ->. Qed.

Lemma tagGap_spec (c : ascii) (s : string) :
  tagGap (String c s)
  = if Ascii.eqb c ">" && Nat.ltb 0 (spaces s) && headIs "<" (drop (spaces s) s)
    then Some (S (S (spaces s))) else None.
Proof.
  destruct (Ascii.eqb_spec c ">") as [->|Hc].
  - cbn [tagGap andb]. destruct (spaces s) as [|k]; [reflexivity|].
    cbn [Nat.ltb Nat.leb andb]. unfold headIs.
    destruct (drop (S k) s) as [|x r]; [reflexivity|]. cbn [head].
    destruct (Ascii.eqb_spec x "<") as [->|Hx]; [reflexivity|].
    destruct x as [[] [] [] [] [] [] [] []]; try reflexivity; congruence.
  - destruct c as [[] [] [] [] [] [] [] []]; try reflexivity; congruence.
Qed.

Lemma tagGap_space (c : ascii) (s : string) :
  isSpace c = true -> tagGap (String c s) = None.
Proof.
  intros Hc. rewrite tagGap_spec.
  destruct (Ascii.eqb_spec c ">") as [->|]; [discriminate | reflexivity].
Qed.

Lemma tagGap_lt (s : string) : tagGap (String "<" s) = None.
Proof. reflexivity. Qed.

Lemma tagGap_noGap (c : ascii) (s : string) :
  startsSpace s = false -> tagGap (String c s) = None.
Proof.
  intros Hs. rewrite tagGap_spec, (spaces_0 _ Hs).
  now rewrite andb_false_r.
Qed.

(** *** The compiled expressions *)

Lemma backtrack_Plus (fuel : nat) (sub : syntax) (s : string) (n : nat)
      (k : string -> nat -> option nat) :
  backtrack (S fuel) (Plus sub) s n k
  = backtrack fuel sub s n
      (fun s' n' =>
         match backtrack fuel (Plus sub) s' n' k with
         | Some m => Some m
         | None => k s' n'
         end).
Proof. reflexivity. Qed.

Lemma backtrack_Concat (fuel : nat) (sub1 sub2 : syntax) (s : string) (n : nat)
      (k : string -> nat -> option nat) :
  backtrack (S fuel) (Concat sub1 sub2) s n k
  = backtrack fuel sub1 s n (fun s' n' => backtrack fuel sub2 s' n' k).
Proof. reflexivity. Qed.

Lemma backtrack_WhiteSpace (fuel : nat) (s : string) (n : nat)
      (k : string -> nat -> option nat) :
  backtrack (S fuel) WhiteSpace s n k
  = match s with
    | String x s' => if isSpace x then k s' (S n) else None
    | EmptyString => None
    end.
Proof. reflexivity. Qed.

Lemma backtrack_Literal (fuel : nat) (c : ascii) (s : string) (n : nat)
      (k : string -> nat -> option nat) :
  backtrack (S fuel) (Literal c) s n k
  = match s with
    | String x s' => if Ascii.eqb x c then k s' (S n) else None
    | EmptyString => None
    end.
Proof. reflexivity. Qed.

Lemma backtrack_spaces (k : string -> nat -> option nat) (s : string) :
  forall fuel n, spaces s + 2 <= fuel ->
  backtrack fuel (Plus WhiteSpace) s n k = longest k s n.
Proof.
  induction s as [|c s IH]; intros fuel n Hf.
  - destruct fuel as [|[|fuel]]; reflexivity.
  - destruct fuel as [|[|fuel]]; [simpl in Hf; lia..|].
    rewrite backtrack_Plus, backtrack_WhiteSpace. cbn [longest].
    destruct (isSpace c) eqn:Ec; [|reflexivity].
    rewrite IH; [reflexivity|]. cbn [spaces] in Hf. rewrite Ec in Hf. lia.
Qed.

Lemma longest_ext (k1 k2 : string -> nat -> option nat) :
  (forall s n, k1 s n = k2 s n) -> forall s n, longest k1 s n = longest k2 s n.
Proof.
  intros H s. induction s as [|c s IH]; intros n; [reflexivity|].
  cbn [longest]. now rewrite IH, H.
Qed.

Lemma longest_accept (s : string) (n : nat) :
  longest (fun _ m => Some m) s n
  = match spaces s with
    | 0 => None
    | S _ => Some (n + spaces s)
    end.
Proof.
  revert n; induction s as [|c s IH]; intros n; [reflexivity|].
  cbn [longest spaces]. destruct (isSpace c); [|reflexivity].
  rewrite IH. destruct (spaces s); f_equal; lia.
Qed.

Lemma longest_then (c : ascii) (s : string) (n : nat) :
  isSpace c = false ->
  longest (fun s' n' =>
             match s' with
             | String x _ => if Ascii.eqb x c then Some (S n') else None
             | EmptyString => None
             end) s n
  = if Nat.ltb 0 (spaces s) && headIs c (drop (spaces s) s)
    then Some (S (n + spaces s)) else None.
Proof.
  intros Hc. revert n; induction s as [|x s IH]; intros n; [reflexivity|].
  cbn [longest spaces]. destruct (isSpace x) eqn:Ex; [|reflexivity].
  rewrite IH. cbn [drop Nat.ltb Nat.leb andb].
  destruct (spaces s) as [|m] eqn:Em.
  - cbn [Nat.ltb Nat.leb andb]. rewrite drop_0. unfold headIs.
    destruct s as [|y s]; [reflexivity|]. cbn [head].
    destruct (Ascii.eqb y c); [f_equal; lia | reflexivity].
  - cbn [Nat.ltb Nat.leb andb].
    destruct (headIs c (drop (S m) s)); [f_equal; lia|].
    destruct s as [|y s]; [reflexivity|].
    cbn [spaces] in Em. destruct (isSpace y) eqn:Ey; [|discriminate].
    destruct (Ascii.eqb_spec y c) as [->|]; [congruence | reflexivity].
Qed.

(** The two expressions of [clean], compiled. *)
Lemma MustCompile_white (s : string) : MustCompile (Plus WhiteSpace) s = white s.
Proof.
  unfold MustCompile, white. rewrite backtrack_spaces, longest_accept.
  - now destruct (spaces s).
  - pose proof (spaces_le s). simpl. lia.
Qed.

Lemma MustCompile_tagGap (s : string) :
  MustCompile (Concat (Literal ">") (Concat (Plus WhiteSpace) (Literal "<"))) s
  = tagGap s.
Proof.
  unfold MustCompile. cbn [size Nat.add].
  rewrite backtrack_Concat, backtrack_Literal.
  destruct s as [|c s]; [reflexivity|]. rewrite tagGap_spec.
  destruct (Ascii.eqb c ">"); [|reflexivity].
  rewrite backtrack_Concat, backtrack_spaces.
  - rewrite (longest_ext _ _ (fun s' n' => backtrack_Literal _ "<" s' n' _)).
    rewrite longest_then by reflexivity. reflexivity.
  - pose proof (spaces_le s). cbn [String.length]. lia.
Qed.

Lemma replaceAll_ext (re1 re2 : Regexp) (repl : string) :
  (forall s, re1 s = re2 s) ->
  forall s k, replaceAll re1 repl k s = replaceAll re2 repl k s.
Proof.
  intros H s. induction s as [|c s IH]; intros k; [reflexivity|].
  cbn [replaceAll]. rewrite H.
  destruct k; [|apply IH]. destruct (re2 (String c s)) as [[|n]|]; now rewrite IH.
Qed.

(** [clean] with the two expressions in closed form. *)
Lemma clean_spec (s : string) :
  clean s = ReplaceAllString white (ReplaceAllString tagGap s "><") " ".
Proof.
  unfold clean, ReplaceAllString.
  rewrite (replaceAll_ext _ _ _ MustCompile_white).
  now rewrite (replaceAll_ext _ _ _ MustCompile_tagGap).
Qed.

(** *** Replacement distributes over a boundary no match can cross *)

Lemma replaceAll_append (re : Regexp) (repl : string) :
  bounded re ->
  forall a b k, stable re a b -> k <= String.length a ->
  replaceAll re repl k (a ++ b) = replaceAll re repl k a ++ replaceAll re repl 0 b.
Proof.
  intros Hre a; induction a as [|c a IH]; intros b k Hs Hk.
  - simpl in Hk. now replace k with 0 by lia.
  - destruct Hs as [Hhd Hs]. destruct k as [|k].
    + cbn [append replaceAll]. cbn [append] in Hhd. rewrite Hhd.
      destruct (re (String c a)) as [[|n]|] eqn:E.
      * now rewrite (IH b 0 Hs) by lia.
      * apply Hre in E. simpl in E.
        rewrite (IH b n Hs) by lia. now rewrite append_assoc.
      * now rewrite (IH b 0 Hs) by lia.
    + cbn [append replaceAll]. apply IH; [assumption | simpl in Hk; lia].
Qed.

Lemma Replace_append (re : Regexp) (repl a b : string) :
  bounded re -> stable re a b ->
  ReplaceAllString re (a ++ b) repl
  = ReplaceAllString re a repl ++ ReplaceAllString re b repl.
Proof.
  intros Hre Hs. unfold ReplaceAllString.
  apply replaceAll_append; [assumption | assumption | lia].
Qed.

Lemma white_stable (a b : string) : startsSpace b = false -> stable white a b.
Proof.
  intros Hb. induction a as [|c a IH]; [exact I|]. split; [|exact IH].
  unfold white. change (String c a ++ b) with (String c a ++ b).
  now rewrite spaces_append.
Qed.

Lemma endsSpace_cons (c : ascii) (s : string) :
  s <> "" -> endsSpace (String c s) = endsSpace s.
Proof. destruct s; [congruence | reflexivity]. Qed.

Lemma endsSpace_tail (c : ascii) (s : string) :
  endsSpace (String c s) = false -> endsSpace s = false.
Proof. destruct s; [reflexivity | now rewrite endsSpace_cons]. Qed.

Lemma spaces_all (s : string) :
  s <> "" -> drop (spaces s) s = "" -> endsSpace s = true.
Proof.
  induction s as [|c s IH]; [congruence|]. intros _. simpl.
  destruct (isSpace c) eqn:Ec; [|discriminate].
  destruct s as [|x s]; [now intros _|].
  intros Hd. apply IH; [discriminate | exact Hd].
Qed.

Lemma tagGap_stable (a b : string) :
  endsSpace a = false -> startsSpace b = false -> stable tagGap a b.
Proof.
  intros Ha Hb. induction a as [|c a IH]; [exact I|].
  split; [|apply IH; eapply endsSpace_tail; eassumption].
  cbn [append]. rewrite !tagGap_spec, (spaces_append _ _ Hb).
  destruct (spaces a) as [|k] eqn:Ek; [now rewrite !andb_false_r|].
  rewrite drop_append by (rewrite <- Ek; apply spaces_le).
  destruct (drop (S k) a) as [|x r] eqn:Ed; [|reflexivity].
  exfalso. assert (Hne : a <> "") by (destruct a; [discriminate | discriminate]).
  rewrite <- Ek in Ed. pose proof (spaces_all a Hne Ed) as He.
  rewrite endsSpace_cons in Ha by assumption. congruence.
Qed.

(** *** What the replacements keep *)

Lemma closeGaps_head (s : string) : head (closeGaps s) = head s.
Proof.
  destruct s as [|c s]; [reflexivity|].
  destruct (tagGap (String c s)) as [[|n]|] eqn:E.
  - unfold ReplaceAllString; cbn [replaceAll]; now rewrite E.
  - rewrite (Replace_match _ _ _ _ _ E). rewrite tagGap_spec in E.
    destruct (Ascii.eqb_spec c ">") as [->|]; [reflexivity | discriminate].
  - now rewrite (Replace_copy _ _ _ _ E).
Qed.

Lemma closeGaps_space (c : ascii) (s : string) :
  isSpace c = true -> closeGaps (String c s) = String c (closeGaps s).
Proof. intros Hc. apply Replace_copy. now apply tagGap_space. Qed.

Lemma collapse_other (c : ascii) (s : string) :
  isSpace c = false -> collapse (String c s) = String c (collapse s).
Proof. intros Hc. apply Replace_copy. now apply white_other. Qed.

Lemma collapse_space (c : ascii) (s : string) :
  isSpace c = true -> collapse (String c s) = String " " (collapse (drop (spaces s) s)).
Proof. intros Hc. now rewrite (Replace_match _ _ _ _ _ (white_space c s Hc)). Qed.

Lemma collapse_head (s : string) : startsSpace s = false -> head (collapse s) = head s.
Proof.
  destruct s as [|c s]; [reflexivity|]. simpl. intros Hc.
  now rewrite collapse_other.
Qed.

Lemma closeGaps_append (a b : string) :
  endsSpace a = false -> startsSpace b = false ->
  closeGaps (a ++ b) = closeGaps a ++ closeGaps b.
Proof.
  intros Ha Hb. apply Replace_append; [exact tagGap_bounded | now apply tagGap_stable].
Qed.

Lemma collapse_append (a b : string) :
  startsSpace b = false -> collapse (a ++ b) = collapse a ++ collapse b.
Proof.
  intros Hb. apply Replace_append; [exact white_bounded | now apply white_stable].
Qed.

(** Cleaning distributes over a boundary between two bytes that are
    not white space. *)
Lemma clean_append (a b : string) :
  endsSpace a = false -> startsSpace b = false ->
  clean (a ++ b) = clean a ++ clean b.
Proof.
  intros Ha Hb. rewrite !clean_spec.
  rewrite closeGaps_append by assumption.
  apply collapse_append.
  rewrite (startsSpace_head _ b); [assumption | apply closeGaps_head].
Qed.

(** *** The shape of a cleaned string *)

Lemma closeGaps_spaces (s : string) :
  spaces (closeGaps s) = spaces s
  /\ drop (spaces s) (closeGaps s) = closeGaps (drop (spaces s) s).
Proof.
  induction s as [|c s [IH1 IH2]]; [split; reflexivity|].
  destruct (isSpace c) eqn:Ec.
  - rewrite closeGaps_space by assumption. simpl. rewrite Ec. simpl.
    now rewrite IH1, IH2.
  - assert (H0 : spaces (String c s) = 0) by (simpl; now rewrite Ec).
    rewrite H0, !drop_0. split; [|reflexivity].
    apply spaces_0. rewrite (startsSpace_head _ (String c s)); [exact Ec|].
    apply closeGaps_head.
Qed.

Lemma tagGap_closeGaps (c : ascii) (s : string) :
  tagGap (String c (closeGaps s)) = tagGap (String c s).
Proof.
  rewrite !tagGap_spec. destruct (closeGaps_spaces s) as [-> ->].
  now rewrite (headIs_head _ _ _ (closeGaps_head _)).
Qed.

Lemma tagGap_positive (s : string) : tagGap s <> Some 0.
Proof.
  destruct s as [|c s]; [discriminate|]. rewrite tagGap_spec.
  now destruct (_ && _ && _).
Qed.

Lemma closeGaps_gapFree (s : string) (k : nat) :
  gapFree (replaceAll tagGap "><" k s) = true.
Proof.
  revert k; induction s as [|c s IH]; intros k; [reflexivity|].
  destruct k as [|k]; cbn [replaceAll]; [|apply IH].
  destruct (tagGap (String c s)) as [[|n]|] eqn:E.
  - now apply tagGap_positive in E.
  - cbn [append gapFree]. rewrite tagGap_lt.
    rewrite tagGap_noGap by reflexivity. apply IH.
  - cbn [gapFree]. change (replaceAll tagGap "><" 0 s) with (closeGaps s).
    rewrite tagGap_closeGaps, E. apply IH.
Qed.

Lemma collapse_skip_head (s : string) :
  startsSpace (replaceAll white " " (spaces s) s) = false.
Proof.
  rewrite replaceAll_skip. pose proof (startsSpace_drop_spaces s) as H.
  change (startsSpace (collapse (drop (spaces s) s)) = false).
  rewrite (startsSpace_head _ _ (collapse_head _ H)). exact H.
Qed.

Lemma collapse_tidy (s : string) (k : nat) :
  tidy (replaceAll white " " k s) = true.
Proof.
  revert k; induction s as [|c s IH]; intros k; [reflexivity|].
  destruct k as [|k]; cbn [replaceAll]; [|apply IH].
  destruct (isSpace c) eqn:Ec.
  - rewrite (white_space _ _ Ec). cbn [append tidy isSpace Ascii.eqb].
    rewrite collapse_skip_head, IH. reflexivity.
  - rewrite (white_other _ _ Ec). cbn [tidy]. now rewrite Ec, IH.
Qed.

Lemma tagGap_collapse (c : ascii) (s : string) :
  tagGap (String c s) = None -> tagGap (String c (collapse s)) = None.
Proof.
  destruct s as [|x s]; [easy|]. destruct (isSpace x) eqn:Ex.
  - rewrite collapse_space by assumption. rewrite !tagGap_spec.
    cbn [spaces]. rewrite Ex. cbn [isSpace drop].
    pose proof (startsSpace_drop_spaces s) as H.
    assert (H' : startsSpace (collapse (drop (spaces s) s)) = false).
    { now rewrite (startsSpace_head _ _ (collapse_head _ H)). }
    rewrite (spaces_0 _ H'), drop_0.
    rewrite (headIs_head _ _ _ (collapse_head _ H)).
    cbn [Nat.ltb Nat.leb]. now destruct (_ && _ && _).
  - intros _. rewrite collapse_other by assumption.
    now apply tagGap_noGap.
Qed.

Lemma collapse_gapFree (s : string) :
  gapFree s = true -> forall k, gapFree (replaceAll white " " k s) = true.
Proof.
  induction s as [|c s IH]; intros Hg k; [reflexivity|].
  cbn [gapFree] in Hg.
  destruct (tagGap (String c s)) eqn:E; [discriminate|].
  destruct k as [|k]; cbn [replaceAll]; [|now apply IH].
  destruct (isSpace c) eqn:Ec.
  - rewrite (white_space _ _ Ec). cbn [append gapFree].
    rewrite tagGap_space by reflexivity. now apply IH.
  - rewrite (white_other _ _ Ec). cbn [gapFree].
    change (replaceAll white " " 0 s) with (collapse s).
    rewrite (tagGap_collapse _ _ E). now apply IH.
Qed.

Lemma closeGaps_fixed (s : string) : gapFree s = true -> closeGaps s = s.
Proof.
  induction s as [|c s IH]; [reflexivity|]. cbn [gapFree].
  destruct (tagGap (String c s)) eqn:E; [discriminate|]. intros Hg.
  now rewrite (Replace_copy _ _ _ _ E), IH.
Qed.

Lemma collapse_fixed (s : string) : tidy s = true -> collapse s = s.
Proof.
  induction s as [|c s IH]; [reflexivity|]. cbn [tidy].
  destruct (isSpace c) eqn:Ec; intros Ht.
  - apply andb_prop in Ht as [Hc Ht]. apply andb_prop in Hc as [Hc Hs].
    apply Ascii.eqb_eq in Hc. apply negb_true_iff in Hs.
    rewrite collapse_space by assumption.
    now rewrite (spaces_0 _ Hs), drop_0, IH, Hc.
  - rewrite collapse_other by assumption. now rewrite IH.
Qed.

Lemma clean_shape (s : string) : gapFree (clean s) = true /\ tidy (clean s) = true.
Proof.
  rewrite clean_spec. unfold ReplaceAllString. split.
  - apply collapse_gapFree, closeGaps_gapFree.
  - apply collapse_tidy.
Qed.

Lemma clean_fixed (s : string) : gapFree s = true -> tidy s = true -> clean s = s.
Proof.
  intros Hg Ht. rewrite clean_spec. now rewrite closeGaps_fixed, collapse_fixed.
Qed.

(** *** Strings without white space *)

Lemma noSpace_starts (s : string) : noSpace s = true -> startsSpace s = false.
Proof.
  destruct s as [|c s]; [reflexivity|]. simpl.
  now destruct (isSpace c).
Qed.

Lemma noSpace_ends (s : string) : noSpace s = true -> endsSpace s = false.
Proof.
  induction s as [|c s IH]; [reflexivity|]. cbn [noSpace]. intros H.
  apply andb_prop in H as [Hc Hs]. apply negb_true_iff in Hc.
  destruct s as [|x s]; [exact Hc | now apply IH].
Qed.

Lemma noSpace_shape (s : string) : noSpace s = true -> gapFree s = true /\ tidy s = true.
Proof.
  induction s as [|c s IH]; [split; reflexivity|]. cbn [noSpace gapFree tidy].
  intros H. apply andb_prop in H as [Hc Hs]. apply negb_true_iff in Hc.
  rewrite Hc, (tagGap_noGap _ _ (noSpace_starts _ Hs)). now apply IH.
Qed.

Lemma clean_noSpace (s : string) : noSpace s = true -> clean s = s.
Proof. intros H. apply noSpace_shape in H as [Hg Ht]. now apply clean_fixed. Qed.

Lemma noSpace_append (a b : string) : noSpace (a ++ b) = noSpace a && noSpace b.
Proof.
  induction a as [|c a IH]; [reflexivity|]. simpl. now rewrite IH, andb_assoc.
Qed.

Lemma startsSpace_append (a b : string) :
  a <> "" -> startsSpace (a ++ b) = startsSpace a.
Proof. destruct a; [congruence | reflexivity]. Qed.

Lemma endsSpace_append (a b : string) :
  b <> "" -> endsSpace (a ++ b) = endsSpace b.
Proof.
  intros Hb. induction a as [|c a IH]; [reflexivity|].
  cbn [append]. rewrite endsSpace_cons; [exact IH|].
  destruct a; [exact Hb | discriminate].
Qed.

End cleanFacts.

(** C6. The white-space normalisation of the envelope, the replacement
    of [>\s+<] by [><] followed by the replacement of [\s+] by one blank,
    is idempotent: cleaning a cleaned string changes nothing, for every
    string. *)
Theorem clean_idempotent (s : string) : clean (clean s) = clean s.
Proof.
  destruct (cleanFacts.clean_shape s) as [Hg Ht].
  now apply cleanFacts.clean_fixed.
Qed.

(* ================================================================= *)
(** ** Cleaning a request piece by piece *)

Module pieceFacts.
Import regexp regexpFacts cleanFacts.

Lemma clean_head (s : string) : startsSpace s = false -> head (clean s) = head s.
Proof.
  intros Hs. rewrite clean_spec. rewrite collapse_head; [apply closeGaps_head|].
  now rewrite (startsSpace_head _ _ (closeGaps_head s)).
Qed.

Lemma closeGaps_last (a : string) (k : nat) :
  k <= String.length a ->
  exists y, replaceAll tagGap "><" k (a ++ "<") = y ++ "<".
Proof.
  revert k; induction a as [|c a IH]; intros k Hk.
  - simpl in Hk. replace k with 0 by lia. now exists "".
  - destruct k as [|k]; cbn [append replaceAll].
    + destruct (tagGap (String c (a ++ "<"))) as [[|n]|] eqn:E.
      * destruct (IH 0) as [y Hy]; [lia|]. exists (String c y). now rewrite Hy.
      * apply tagGap_bounded in E. cbn [String.length] in E.
        rewrite length_append in E. simpl in E.
        destruct (Nat.le_gt_cases n (String.length a)) as [Hn|Hn].
        -- destruct (IH n Hn) as [y Hy]. exists ("><" ++ y). now rewrite Hy.
        -- exists ">". rewrite replaceAll_past; [reflexivity|].
           rewrite length_append. simpl. lia.
      * destruct (IH 0) as [y Hy]; [lia|]. exists (String c y). now rewrite Hy.
    + apply IH. simpl in Hk. lia.
Qed.

Lemma clean_last (a : string) : exists y, clean (a ++ "<") = y ++ "<".
Proof.
  destruct (closeGaps_last a 0) as [y Hy]; [lia|].
  rewrite clean_spec. unfold ReplaceAllString at 2. rewrite Hy.
  rewrite collapse_append by reflexivity. now eexists.
Qed.

Lemma clean_tagged (s : string) :
  exists y, clean (">" ++ s ++ "<") = ">" ++ y ++ "<".
Proof.
  destruct (clean_last (">" ++ s)) as [z Hz].
  rewrite append_assoc in Hz.
  pose proof (clean_head (">" ++ s ++ "<") eq_refl) as Hh.
  rewrite Hz in Hh. destruct z as [|c z]; [discriminate|].
  injection Hh as ->. exists z. exact Hz.
Qed.

Lemma substring_prefix (y z : string) :
  String.substring 0 (String.length y) (y ++ z) = y.
Proof.
  induction y as [|c y IH]; simpl; [now destruct z | now rewrite IH].
Qed.

Lemma cleanText_spec (s : string) :
  clean (">" ++ s ++ "<") = ">" ++ cleanText s ++ "<".
Proof.
  destruct (clean_tagged s) as [y Hy]. unfold cleanText. rewrite Hy.
  cbn [append String.length]. rewrite length_append. simpl String.length.
  replace (S (String.length y + 1) - 2) with (String.length y) by lia.
  cbn [String.substring]. now rewrite substring_prefix.
Qed.

Lemma cleanText_noSpace (s : string) : noSpace s = true -> cleanText s = s.
Proof.
  intros Hs. pose proof (cleanText_spec s) as H.
  rewrite clean_noSpace in H.
  - cbn [append] in H. injection H as H.
    revert H. generalize (cleanText s) as t. clear Hs.
    induction s as [|c s IH]; intros t H.
    + destruct t as [|x t]; [reflexivity|].
      destruct t; discriminate.
    + destruct t as [|x t]; simpl in H.
      * destruct s; discriminate.
      * injection H as -> H. f_equal. now apply IH.
  - rewrite !noSpace_append, Hs. reflexivity.
Qed.

(** *** Pieces that neither start nor end with white space *)

Lemma joined_starts (pieces : list string) :
  Forall solid pieces -> startsSpace (joined pieces) = false.
Proof.
  induction 1 as [|p ps [Hp _] _ IH]; [reflexivity|]. cbn [joined fold_right].
  destruct p as [|c p]; [exact IH | exact Hp].
Qed.

Lemma clean_joined (pieces : list string) :
  Forall solid pieces -> clean (joined pieces) = joined (map clean pieces).
Proof.
  induction 1 as [|p ps [_ Hp] Hps IH]; [reflexivity|].
  cbn [joined fold_right map]. fold (joined ps). fold (joined (map clean ps)).
  rewrite clean_append; [now rewrite IH | exact Hp | now apply joined_starts].
Qed.

Lemma solid_tagged (s : string) : solid (">" ++ s ++ "<").
Proof.
  split; [reflexivity|].
  rewrite <- append_assoc. now rewrite endsSpace_append.
Qed.

Lemma solid_noSpace (s : string) : noSpace s = true -> solid s.
Proof. split; [now apply noSpace_starts | now apply noSpace_ends]. Qed.

Lemma solid_open (namespaces : list string) : solid (wire.open namespaces).
Proof.
  split; [reflexivity|]. unfold wire.open.
  rewrite <- !append_assoc. now rewrite endsSpace_append.
Qed.

End pieceFacts.

Module base64Facts.
Import base64.

Lemma encode_noSpace (v : N) : regexp.isSpace (encode v) = false.
Proof.
  unfold encode. generalize (N.to_nat v) as n. intros n.
  do 64 (destruct n as [|n]; [reflexivity|]). reflexivity.
Qed.

Lemma EncodeToString_noSpace_aux (s : string) :
  noSpace (EncodeToString s) = true
  /\ (forall a, noSpace (EncodeToString (String a s)) = true)
  /\ (forall a b, noSpace (EncodeToString (String a (String b s))) = true).
Proof.
  induction s as [|c s (IH0 & IH1 & IH2)].
  - repeat split; intros; cbn [EncodeToString noSpace];
      rewrite ?encode_noSpace; reflexivity.
  - repeat split; intros; [apply IH1 | apply IH2|].
    cbn [EncodeToString noSpace]. rewrite !encode_noSpace. exact IH0.
Qed.

(** The standard alphabet holds no white space. *)
Lemma EncodeToString_noSpace (s : string) : noSpace (EncodeToString s) = true.
Proof. apply EncodeToString_noSpace_aux. Qed.

End base64Facts.

(* ================================================================= *)
(** ** The shape of a built envelope *)

Lemma nonempty_true (s : string) : nonempty s = true <-> s <> "".
Proof.
  unfold nonempty. rewrite negb_true_iff.
  destruct (String.eqb_spec s ""); split; congruence.
Qed.

Lemma nonempty_false (s : string) : nonempty s = false <-> s = "".
Proof.
  unfold nonempty. rewrite negb_false_iff. apply String.eqb_eq.
Qed.

(** The request before cleaning is the concatenation of [pieces]. *)
Ltac cut_into pieces :=
  match goal with
  | |- clean ?raw = _ =>
      replace raw with (joined pieces);
      [ rewrite pieceFacts.clean_joined
      | unfold wire.open; cbn [joined fold_right];
        repeat rewrite append_assoc; reflexivity ]
  end.

(** Every piece is a literal, a text between [>] and [<], or free of
    white space. *)
Ltac solid_pieces noSpace_tac :=
  repeat (apply Forall_cons); try apply Forall_nil;
  first [ apply pieceFacts.solid_open
        | apply pieceFacts.solid_tagged
        | apply pieceFacts.solid_noSpace; noSpace_tac
        | split; reflexivity ].

(** The cleaned literals are computed; the texts of the caller stay. *)
Ltac compare_pieces soap :=
  cbn [map]; rewrite ?pieceFacts.cleanText_spec;
  generalize (cleanText (Action soap)) (cleanText (User soap))
    (cleanText (Body soap)) (clean (wire.open (XMLNs soap)));
  intros; rewrite ?cleanFacts.clean_spec;
  unfold wire.Action, wire.Security, wire.Body; cbn [joined fold_right];
  repeat rewrite append_assoc; reflexivity.

Section Shape.

Context {tm : time.Pkg}.

Lemma createRequest_anonymous (soap : SOAP) (env : Env) :
  nonempty (User soap) = false ->
  createRequest soap env
  = clean (wire.open (XMLNs soap))
    ++ (if nonempty (Action soap)
        then "<s:Header>" ++ wire.Action (cleanText (Action soap)) ++ "</s:Header>"
        else "")
    ++ wire.Body (cleanText (Body soap)) ++ "</s:Envelope>".
Proof.
  intros HU. unfold createRequest. rewrite HU, orb_false_r, fold_namespaces.
  destruct (nonempty (Action soap)).
  - cut_into
      [ wire.open (XMLNs soap);
        "<s:Header>" ++ lit "<Action mustUnderstand='1'" ++ LF
          ++ TAB ++ TAB ++ TAB ++ TAB ++ TAB ++ TAB ++ TAB
          ++ lit "   xmlns='http://www.w3.org/2005/08/addressing'";
        ">" ++ Action soap ++ "<";
        "/Action>" ++ "</s:Header>" ++ "<s:Body";
        ">" ++ Body soap ++ "<";
        "/s:Body></s:Envelope>" ].
    + compare_pieces soap.
    + solid_pieces fail.
  - cut_into
      [ wire.open (XMLNs soap); "<s:Body"; ">" ++ Body soap ++ "<";
        "/s:Body></s:Envelope>" ].
    + compare_pieces soap.
    + solid_pieces fail.
Qed.

(** [time.Format] with the layout [time.RFC3339] writes digits, [-],
    [:], [T], [Z] and [+]: no white space. *)
Hypothesis RFC3339_noSpace :
  forall t, noSpace (time.Format t time.RFC3339) = true.

Lemma createRequest_token (soap : SOAP) (env : Env) :
  nonempty (User soap) = true ->
  let created :=
    if negb (time.IsZero (CameraTime soap)) then
      time.Format (time.UTC (time.Add (CameraTime soap) (TokenAge soap))) time.RFC3339
    else
      time.Format (time.UTC (time.Add (time_Now env) (TokenAge soap))) time.RFC3339 in
  createRequest soap env
  = clean (wire.open (XMLNs soap))
    ++ "<s:Header>"
    ++ (if nonempty (Action soap) then wire.Action (cleanText (Action soap)) else "")
    ++ wire.Security (cleanText (User soap))
         (base64.EncodeToString (sha1.Sum ((uuid_New env ++ created) ++ Password soap)))
         (base64.EncodeToString (uuid_New env))
         created
    ++ "</s:Header>"
    ++ wire.Body (cleanText (Body soap)) ++ "</s:Envelope>".
Proof.
  intros HU created.
  assert (Hcreated : noSpace created = true).
  { unfold created. destruct (negb _); apply RFC3339_noSpace. }
  unfold createRequest, createUserToken. fold created.
  rewrite HU, orb_true_r, fold_namespaces.
  set (digest := base64.EncodeToString (sha1.Sum _)).
  set (nonce64 := base64.EncodeToString (uuid_New env)).
  assert (Hdigest : noSpace digest = true)
    by apply base64Facts.EncodeToString_noSpace.
  assert (Hnonce : noSpace nonce64 = true)
    by apply base64Facts.EncodeToString_noSpace.
  clearbody digest nonce64 created.
  destruct (nonempty (Action soap)).
  - cut_into
      [ wire.open (XMLNs soap);
        "<s:Header>" ++ lit "<Action mustUnderstand='1'" ++ LF
          ++ TAB ++ TAB ++ TAB ++ TAB ++ TAB ++ TAB ++ TAB
          ++ lit "   xmlns='http://www.w3.org/2005/08/addressing'";
        ">" ++ Action soap ++ "<";
        "/Action>"
          ++ lit "<Security s:mustUnderstand='1' xmlns='http://docs.oasis-open.org/wss/2004/01/oasis-200401-wss-wssecurity-secext-1.0.xsd'>"
          ++ LF ++ "  " ++ TAB ++ TAB ++ "<UsernameToken>"
          ++ LF ++ "    " ++ TAB ++ TAB ++ "<Username";
        ">" ++ User soap ++ "<";
        "/Username>" ++ LF ++ "    " ++ TAB ++ TAB
          ++ lit "<Password Type='http://docs.oasis-open.org/wss/2004/01/oasis-200401-wss-username-token-profile-1.0#PasswordDigest'>";
        digest;
        "</Password>" ++ LF ++ "    " ++ TAB ++ TAB
          ++ lit "<Nonce EncodingType='http://docs.oasis-open.org/wss/2004/01/oasis-200401-wss-soap-message-security-1.0#Base64Binary'>";
        nonce64;
        "</Nonce>" ++ LF ++ "    " ++ TAB ++ TAB
          ++ lit "<Created xmlns='http://docs.oasis-open.org/wss/2004/01/oasis-200401-wss-wssecurity-utility-1.0.xsd'>";
        created;
        "</Created>" ++ LF ++ TAB ++ TAB ++ "</UsernameToken>"
          ++ LF ++ TAB ++ "</Security>" ++ "</s:Header>" ++ "<s:Body";
        ">" ++ Body soap ++ "<";
        "/s:Body></s:Envelope>" ].
    + cbn [map].
      rewrite (cleanFacts.clean_noSpace digest), (cleanFacts.clean_noSpace nonce64),
        (cleanFacts.clean_noSpace created) by assumption.
      compare_pieces soap.
    + solid_pieces assumption.
  - cut_into
      [ wire.open (XMLNs soap);
        "<s:Header>"
          ++ lit "<Security s:mustUnderstand='1' xmlns='http://docs.oasis-open.org/wss/2004/01/oasis-200401-wss-wssecurity-secext-1.0.xsd'>"
          ++ LF ++ "  " ++ TAB ++ TAB ++ "<UsernameToken>"
          ++ LF ++ "    " ++ TAB ++ TAB ++ "<Username";
        ">" ++ User soap ++ "<";
        "/Username>" ++ LF ++ "    " ++ TAB ++ TAB
          ++ lit "<Password Type='http://docs.oasis-open.org/wss/2004/01/oasis-200401-wss-username-token-profile-1.0#PasswordDigest'>";
        digest;
        "</Password>" ++ LF ++ "    " ++ TAB ++ TAB
          ++ lit "<Nonce EncodingType='http://docs.oasis-open.org/wss/2004/01/oasis-200401-wss-soap-message-security-1.0#Base64Binary'>";
        nonce64;
        "</Nonce>" ++ LF ++ "    " ++ TAB ++ TAB
          ++ lit "<Created xmlns='http://docs.oasis-open.org/wss/2004/01/oasis-200401-wss-wssecurity-utility-1.0.xsd'>";
        created;
        "</Created>" ++ LF ++ TAB ++ TAB ++ "</UsernameToken>"
          ++ LF ++ TAB ++ "</Security>" ++ "</s:Header>" ++ "<s:Body";
        ">" ++ Body soap ++ "<";
        "/s:Body></s:Envelope>" ].
    + cbn [map].
      rewrite (cleanFacts.clean_noSpace digest), (cleanFacts.clean_noSpace nonce64),
        (cleanFacts.clean_noSpace created) by assumption.
      compare_pieces soap.
    + solid_pieces assumption.
Qed.

End Shape.

(* ================================================================= *)
(** ** The reference collaborators meet their contracts *)

Module ReferenceFacts.
Import Reference.

Lemma digit_noSpace (k : Z) : regexp.isSpace (digit k) = false.
Proof.
  unfold digit.
  assert (H : (Z.to_nat (k mod 10) < 10)%nat)
    by (pose proof (Z.mod_pos_bound k 10 eq_refl); lia).
  revert H. generalize (Z.to_nat (k mod 10)) as n. intros n H.
  do 10 (destruct n as [|n]; [reflexivity|]). lia.
Qed.

Lemma d2_noSpace (k : Z) : noSpace (d2 k) = true.
Proof. unfold d2. cbn [noSpace]. now rewrite !digit_noSpace. Qed.

Lemma d4_noSpace (k : Z) : noSpace (d4 k) = true.
Proof. unfold d4. now rewrite cleanFacts.noSpace_append, !d2_noSpace. Qed.

Lemma rfc3339_noSpace (t : Instant) : noSpace (rfc3339 t) = true.
Proof.
  unfold rfc3339. destruct (yearOf _) as [year yday].
  destruct (monthOf _ _ _) as [month day].
  repeat (rewrite cleanFacts.noSpace_append; cbn [noSpace]).
  now rewrite d4_noSpace, !d2_noSpace.
Qed.

Lemma clock_noSpace (t : @time.Time clock) :
  noSpace (@time.Format clock t time.RFC3339) = true.
Proof. apply rfc3339_noSpace. Qed.

(** The parser of [camera] never answers with neither a tree nor an
    error. *)
Lemma camera_parser (trees : list (string * Tree)) (answer doc : string) :
  mxj_NewMapXml (camera trees answer) doc <> (None, None).
Proof.
  cbn [mxj_NewMapXml camera].
  destruct (find _ trees) as [[? ?]|]; discriminate.
Qed.

End ReferenceFacts.

(* ================================================================= *)
(** ** Words that the builder does not write *)

Module containsFacts.
Import regexp regexpFacts cleanFacts.

Lemma prefix_nil (s : string) : String.prefix "" s = true.
Proof. now destruct s. Qed.

Lemma prefix_cons (x c : ascii) (w s : string) :
  String.prefix (String x w) (String c s) = Ascii.eqb x c && String.prefix w s.
Proof.
  cbn [String.prefix]. destruct (ascii_dec x c) as [->|H].
  - now rewrite Ascii.eqb_refl.
  - apply Ascii.eqb_neq in H. now rewrite H.
Qed.

Lemma prefix_head (x c : ascii) (w s : string) :
  Ascii.eqb x c = false -> String.prefix (String x w) (String c s) = false.
Proof. intros H. now rewrite prefix_cons, H. Qed.

(** A separator that is not in [w] cuts the search for [w] in two. *)
Lemma prefix_separator (c : ascii) (w a b : string) :
  occurs c w = false -> String.prefix w (a ++ String c b) = String.prefix w a.
Proof.
  revert a; induction w as [|x w IH]; intros a Hc.
  - now rewrite !prefix_nil.
  - cbn [occurs] in Hc. apply orb_false_iff in Hc as [Hx Hw].
    destruct a as [|y a]; cbn [append].
    + now rewrite prefix_head.
    + now rewrite !prefix_cons, IH.
Qed.

Lemma Contains_separator (c : ascii) (w a b : string) :
  occurs c w = false ->
  Contains (a ++ String c b) w = Contains a w || Contains b w.
Proof.
  intros Hc. induction a as [|y a IH].
  - pose proof (prefix_separator c w "" b Hc) as P. cbn [append] in P.
    cbn [append Contains]. rewrite P. now rewrite orb_false_r.
  - pose proof (prefix_separator c w (String y a) b Hc) as P. cbn [append] in P.
    cbn [append Contains]. rewrite IH, P. now rewrite orb_assoc.
Qed.

Lemma Contains_nil_r (a w : string) : Contains (a ++ "") w = Contains a w.
Proof. now rewrite append_nil_r. Qed.

Lemma word_head (x : ascii) (w : string) :
  wordBytes (String x w) = true ->
  isSpace x = false /\ Ascii.eqb x "<" = false /\ Ascii.eqb x ">" = false
  /\ wordBytes w = true.
Proof.
  cbn [wordBytes]. intros H.
  apply andb_prop in H as [H Hw]. apply andb_prop in H as [H Hgt].
  apply andb_prop in H as [Hs Hlt].
  now rewrite negb_true_iff in Hs, Hlt, Hgt.
Qed.

Lemma tagGap_some (c : ascii) (s : string) (n : nat) :
  tagGap (String c s) = Some n -> c = ">"%char.
Proof.
  rewrite tagGap_spec. destruct (Ascii.eqb_spec c ">"); [easy | discriminate].
Qed.

Lemma prefix_closeGaps (w s : string) :
  wordBytes w = true ->
  String.prefix w (ReplaceAllString tagGap s "><") = true -> String.prefix w s = true.
Proof.
  revert s; induction w as [|x w IH]; intros s Hw; [now rewrite !prefix_nil|].
  apply word_head in Hw as (Hs & Hlt & Hgt & Hw).
  destruct s as [|c s]; [easy|].
  destruct (tagGap (String c s)) as [[|n]|] eqn:E.
  - now apply tagGap_positive in E.
  - rewrite (Replace_match _ _ _ _ _ E). cbn [append]. now rewrite prefix_head.
  - rewrite (Replace_copy _ _ _ _ E), !prefix_cons.
    intros H. apply andb_prop in H as [-> H]. now rewrite (IH s Hw H).
Qed.

Lemma prefix_collapse (w s : string) :
  wordBytes w = true ->
  String.prefix w (ReplaceAllString white s " ") = true -> String.prefix w s = true.
Proof.
  revert s; induction w as [|x w IH]; intros s Hw; [now rewrite !prefix_nil|].
  apply word_head in Hw as (Hs & Hlt & Hgt & Hw).
  destruct s as [|c s]; [easy|]. destruct (isSpace c) eqn:Ec.
  - rewrite collapse_space by assumption. rewrite prefix_head; [easy|].
    destruct (Ascii.eqb_spec x " ") as [->|]; [discriminate | reflexivity].
  - rewrite collapse_other by assumption. rewrite !prefix_cons.
    intros H. apply andb_prop in H as [-> H]. now rewrite (IH s Hw H).
Qed.

Lemma Contains_cons (c : ascii) (s w : string) :
  Contains s w = true -> Contains (String c s) w = true.
Proof. intros H. cbn [Contains]. rewrite H. apply orb_true_r. Qed.

Lemma Contains_closeGaps (w s : string) (k : nat) :
  word w = true ->
  Contains (replaceAll tagGap "><" k s) w = true -> Contains s w = true.
Proof.
  unfold word. intros H. apply andb_prop in H as [Hne Hw].
  destruct w as [|x w]; [discriminate|]. clear Hne.
  pose proof Hw as Hw'. apply word_head in Hw' as (Hs & Hlt & Hgt & _).
  revert k; induction s as [|c s IH]; intros k; [easy|].
  destruct k as [|k]; cbn [replaceAll].
  - destruct (tagGap (String c s)) as [[|n]|] eqn:E.
    + now apply tagGap_positive in E.
    + cbn [append Contains]. rewrite !prefix_head by assumption. cbn [orb].
      intros H. apply Contains_cons. now apply (IH n).
    + change (replaceAll tagGap "><" 0 s) with (ReplaceAllString tagGap s "><").
      cbn [Contains]. intros H. apply orb_prop in H as [H|H].
      * rewrite <- (Replace_copy _ _ _ _ E) in H.
        now rewrite (prefix_closeGaps _ _ Hw H).
      * rewrite (IH 0 H). apply orb_true_r.
  - intros H. apply Contains_cons. now apply (IH k).
Qed.

Lemma Contains_collapse (w s : string) (k : nat) :
  word w = true ->
  Contains (replaceAll white " " k s) w = true -> Contains s w = true.
Proof.
  unfold word. intros H. apply andb_prop in H as [Hne Hw].
  destruct w as [|x w]; [discriminate|]. clear Hne.
  pose proof Hw as Hw'. apply word_head in Hw' as (Hs & Hlt & Hgt & _).
  assert (Hb : Ascii.eqb x " " = false)
    by (destruct (Ascii.eqb_spec x " ") as [->|]; [discriminate | reflexivity]).
  revert k; induction s as [|c s IH]; intros k; [easy|].
  destruct k as [|k]; cbn [replaceAll].
  - destruct (isSpace c) eqn:Ec.
    + rewrite (white_space _ _ Ec). cbn [append Contains].
      rewrite prefix_head by assumption. cbn [orb].
      intros H. apply Contains_cons. now apply (IH (spaces s)).
    + rewrite (white_other _ _ Ec).
      change (replaceAll white " " 0 s) with (ReplaceAllString white s " ").
      cbn [Contains]. intros H. apply orb_prop in H as [H|H].
      * rewrite <- (collapse_other _ _ Ec) in H.
        now rewrite (prefix_collapse _ _ Hw H).
      * rewrite (IH 0 H). apply orb_true_r.
  - intros H. apply Contains_cons. now apply (IH k).
Qed.

(** Cleaning brings no word into a string. *)
Lemma Contains_clean (w s : string) :
  word w = true -> Contains s w = false -> Contains (clean s) w = false.
Proof.
  intros Hw Hs. destruct (Contains (clean s) w) eqn:E; [|reflexivity].
  rewrite clean_spec in E. unfold ReplaceAllString in E.
  apply (Contains_collapse w _ 0 Hw) in E.
  apply (Contains_closeGaps w _ 0 Hw) in E. congruence.
Qed.

End containsFacts.

Module mentionFacts.
Import containsFacts.

Lemma Contains_namespaces (w front : string) (namespaces : list string) :
  occurs " " w = false ->
  Contains (front
            ++ fold_right (fun namespace rest => " " ++ namespace ++ rest) ""
                 namespaces) w
  = Contains front w || existsb (fun text => Contains text w) namespaces.
Proof.
  intros Hw. revert front; induction namespaces as [|n ns IH]; intros front.
  - cbn [fold_right existsb]. now rewrite Contains_nil_r, orb_false_r.
  - cbn [fold_right existsb append].
    rewrite Contains_separator by assumption. now rewrite IH.
Qed.

Lemma unmentioned_existsb (w : string) (texts : list string) :
  unmentioned w texts = true -> existsb (fun text => Contains text w) texts = false.
Proof.
  unfold unmentioned. induction texts as [|t ts IH]; [reflexivity|].
  cbn [forallb existsb]. intros H. apply andb_prop in H as [Ht Hts].
  apply negb_true_iff in Ht. now rewrite Ht, IH.
Qed.

End mentionFacts.

(** The request before cleaning, cut at bytes [>], [<] and blank that
    the word [w] does not hold; the literal pieces are searched by
    computation. *)
Ltac search_pieces pieces :=
  match goal with
  | |- Contains ?raw _ = false =>
      replace raw with pieces
        by (repeat rewrite append_assoc; reflexivity)
  end;
  repeat rewrite containsFacts.Contains_separator by reflexivity;
  rewrite mentionFacts.Contains_namespaces by reflexivity.

Section Mention.
Context {tm : time.Pkg}.

Lemma anonymous_no_Security (soap : SOAP) (env : Env) :
  nonempty (User soap) = false ->
  unmentioned "Security" (Action soap :: Body soap :: XMLNs soap) = true ->
  Contains (createRequest soap env) "Security" = false.
Proof.
  intros HU Hm. cbn [unmentioned forallb] in Hm.
  apply andb_prop in Hm as [HA Hm]. apply andb_prop in Hm as [HB HN].
  apply negb_true_iff in HA, HB. apply mentionFacts.unmentioned_existsb in HN.
  unfold createRequest. rewrite HU, orb_false_r, fold_namespaces.
  apply containsFacts.Contains_clean; [reflexivity|].
  destruct (nonempty (Action soap)).
  - search_pieces
      (((lit "<?xml version='1.0' encoding='UTF-8'?>"
           ++ lit "<s:Envelope xmlns:s='http://www.w3.org/2003/05/soap-envelope'")
          ++ fold_right (fun namespace rest => " " ++ namespace ++ rest) "" (XMLNs soap))
         ++ String ">"
              (("<s:Header>" ++ lit "<Action mustUnderstand='1'" ++ LF
                  ++ TAB ++ TAB ++ TAB ++ TAB ++ TAB ++ TAB ++ TAB
                  ++ lit "   xmlns='http://www.w3.org/2005/08/addressing'")
                 ++ String ">"
                      (Action soap
                         ++ String "<"
                              ("/Action></s:Header><s:Body"
                                 ++ String ">"
                                      (Body soap ++ String "<" "/s:Body></s:Envelope>"))))).
    now rewrite HA, HB, HN.
  - search_pieces
      (((lit "<?xml version='1.0' encoding='UTF-8'?>"
           ++ lit "<s:Envelope xmlns:s='http://www.w3.org/2003/05/soap-envelope'")
          ++ fold_right (fun namespace rest => " " ++ namespace ++ rest) "" (XMLNs soap))
         ++ String ">"
              ("<s:Body" ++ String ">" (Body soap ++ String "<" "/s:Body></s:Envelope>"))).
    now rewrite HB, HN.
Qed.

Lemma bare_no_Header (soap : SOAP) (env : Env) :
  nonempty (User soap) = false -> nonempty (Action soap) = false ->
  unmentioned "Header" (Body soap :: XMLNs soap) = true ->
  Contains (createRequest soap env) "Header" = false.
Proof.
  intros HU HA Hm. cbn [unmentioned forallb] in Hm.
  apply andb_prop in Hm as [HB HN].
  apply negb_true_iff in HB. apply mentionFacts.unmentioned_existsb in HN.
  unfold createRequest. rewrite HU, HA, fold_namespaces. cbn [orb].
  apply containsFacts.Contains_clean; [reflexivity|].
  search_pieces
    (((lit "<?xml version='1.0' encoding='UTF-8'?>"
         ++ lit "<s:Envelope xmlns:s='http://www.w3.org/2003/05/soap-envelope'")
        ++ fold_right (fun namespace rest => " " ++ namespace ++ rest) "" (XMLNs soap))
       ++ String ">"
            ("<s:Body" ++ String ">" (Body soap ++ String "<" "/s:Body></s:Envelope>"))).
  now rewrite HB, HN.
Qed.

End Mention.

(* ================================================================= *)
(** ** The envelope builder *)

Section Envelope.

Context {tm : time.Pkg}.

(** C4. For every descriptor whose username is the empty string, the
    built envelope holds no Security element: after the open tag of the
    envelope come either the Body block at once, when the action is
    empty too, or a Header block that holds the Action element and
    nothing else.  So the word Security occurs in the envelope only if
    a text of the caller brings it, and so does the word Header when the
    action is empty. *)
Theorem anonymous_envelope (soap : SOAP) (env : Env) :
  User soap = "" ->
  createRequest soap env
  = clean (wire.open (XMLNs soap))
    ++ (if nonempty (Action soap)
        then "<s:Header>" ++ wire.Action (cleanText (Action soap)) ++ "</s:Header>"
        else "")
    ++ wire.Body (cleanText (Body soap)) ++ "</s:Envelope>"
  /\ (Action soap = "" ->
      createRequest soap env
      = clean (wire.open (XMLNs soap))
        ++ wire.Body (cleanText (Body soap)) ++ "</s:Envelope>")
  /\ (unmentioned "Security" (Action soap :: Body soap :: XMLNs soap) = true ->
      Contains (createRequest soap env) "Security" = false)
  /\ (Action soap = "" ->
      unmentioned "Header" (Body soap :: XMLNs soap) = true ->
      Contains (createRequest soap env) "Header" = false).
Proof.
  intros HU. apply nonempty_false in HU.
  pose proof (createRequest_anonymous soap env HU) as E.
  split; [exact E|]. split; [|split].
  - intros HA. apply nonempty_false in HA. now rewrite HA in E.
  - now apply anonymous_no_Security.
  - intros HA. apply nonempty_false in HA. now apply bare_no_Header.
Qed.

(** C10. For every descriptor whose username is the empty string,
    building the envelope is deterministic: whatever the random source
    and the clock give, the same string is built. *)
Theorem anonymous_deterministic (soap : SOAP) (env1 env2 : Env) :
  User soap = "" -> createRequest soap env1 = createRequest soap env2.
Proof.
  intros HU. apply nonempty_false in HU.
  now rewrite !createRequest_anonymous by assumption.
Qed.

(** What precedes the Body block ends with [>], and nothing of it
    reaches into the body under cleaning. *)
Lemma createRequest_body (soap : SOAP) (env : Env) :
  exists front,
    createRequest soap env
    = front ++ wire.Body (cleanText (Body soap)) ++ "</s:Envelope>".
Proof.
  unfold createRequest. rewrite fold_namespaces.
  match goal with
  | |- exists _, clean ((?X ++ _) ++ _) = _ => set (front := X)
  end.
  assert (Hfront : solid front).
  { unfold front. split.
    - destruct (_ || _); [destruct (nonempty (Action soap)), (nonempty (User soap))|];
        repeat rewrite append_assoc; reflexivity.
    - destruct (_ || _); now rewrite cleanFacts.endsSpace_append. }
  clearbody front. exists (clean front).
  replace ((front ++ ("<s:Body>" ++ Body soap) ++ "</s:Body>") ++ "</s:Envelope>")
    with (joined [front; "<s:Body"; ">" ++ Body soap ++ "<"; "/s:Body></s:Envelope>"])
    by (cbn [joined fold_right]; repeat rewrite append_assoc; reflexivity).
  rewrite pieceFacts.clean_joined.
  - cbn [map]. rewrite pieceFacts.cleanText_spec.
    unfold wire.Body. cbn [joined fold_right].
    repeat rewrite append_assoc. reflexivity.
  - repeat (apply Forall_cons); try apply Forall_nil;
      first [ assumption | apply pieceFacts.solid_tagged | split; reflexivity ].
Qed.

(** C7, as the code has it.  For every descriptor, the built envelope
    ends with the Body block and the close tag of the envelope, and the
    Body block holds the body fragment of the caller as cleaning leaves
    it between the two tags, without escaping or parsing; a fragment
    without white space stands there byte for byte. *)
Theorem body_between_tags (soap : SOAP) (env : Env) :
  (exists front,
     createRequest soap env
     = front ++ "<s:Body>" ++ cleanText (Body soap) ++ "</s:Body>" ++ "</s:Envelope>")
  /\ clean (">" ++ Body soap ++ "<") = ">" ++ cleanText (Body soap) ++ "<"
  /\ (noSpace (Body soap) = true -> cleanText (Body soap) = Body soap).
Proof.
  split; [|split].
  - destruct (createRequest_body soap env) as [front E]. exists front.
    rewrite E. unfold wire.Body. now repeat rewrite append_assoc.
  - apply pieceFacts.cleanText_spec.
  - apply pieceFacts.cleanText_noSpace.
Qed.

(** [time.Format] with the layout [time.RFC3339] writes digits, [-],
    [:], [T], [Z] and [+]: no white space. *)
Hypothesis RFC3339_noSpace :
  forall t, noSpace (time.Format t time.RFC3339) = true.

(** C1. For every descriptor with a username, the Security element of
    the built envelope holds in Password the base64 text of the SHA-1
    of the nonce, the timestamp and the password, in that order, where
    the nonce is the one whose base64 text stands in Nonce and the
    timestamp is the text that stands in Created. *)
Theorem digest_of_embedded_nonce_and_timestamp (soap : SOAP) (env : Env) :
  User soap <> "" ->
  exists created,
    createRequest soap env
    = clean (wire.open (XMLNs soap))
      ++ "<s:Header>"
      ++ (if nonempty (Action soap) then wire.Action (cleanText (Action soap)) else "")
      ++ wire.Security (cleanText (User soap))
           (base64.EncodeToString
              (sha1.Sum (uuid_New env ++ created ++ Password soap)))
           (base64.EncodeToString (uuid_New env))
           created
      ++ "</s:Header>"
      ++ wire.Body (cleanText (Body soap)) ++ "</s:Envelope>".
Proof.
  intros HU. apply nonempty_true in HU.
  pose proof (createRequest_token RFC3339_noSpace soap env HU) as E.
  cbv zeta in E. set (created := if negb _ then _ else _) in E.
  clearbody created. rewrite append_assoc in E. exists created. exact E.
Qed.

(** C2. The timestamp that the token generator writes in Created is the
    camera time plus the token age when the camera time is not the zero
    time, and the local time plus the token age when it is, brought to
    UTC and formatted with the RFC 3339 layout; for a descriptor with a
    username that text stands in the Created element of the built
    envelope. *)
Theorem created_is_asserted_time (soap : SOAP) (env : Env) :
  let base :=
    if time.IsZero (CameraTime soap) then time_Now env else CameraTime soap in
  let created :=
    time.Format (time.UTC (time.Add base (TokenAge soap))) time.RFC3339 in
  (exists before after,
     createUserToken soap env
     = before
       ++ lit "<Created xmlns='http://docs.oasis-open.org/wss/2004/01/oasis-200401-wss-wssecurity-utility-1.0.xsd'>"
       ++ created ++ "</Created>" ++ after)
  /\ (User soap <> "" ->
      exists digest nonce64,
        createRequest soap env
        = clean (wire.open (XMLNs soap))
          ++ "<s:Header>"
          ++ (if nonempty (Action soap) then wire.Action (cleanText (Action soap)) else "")
          ++ wire.Security (cleanText (User soap)) digest nonce64 created
          ++ "</s:Header>"
          ++ wire.Body (cleanText (Body soap)) ++ "</s:Envelope>").
Proof.
  intros base created. split.
  - unfold createUserToken.
    replace (if negb (time.IsZero (CameraTime soap)) then _ else _)
      with created
      by (unfold created, base; now destruct (time.IsZero (CameraTime soap))).
    set (digest := base64.EncodeToString (sha1.Sum _)).
    set (nonce64 := base64.EncodeToString (uuid_New env)).
    clearbody digest nonce64 created.
    match goal with
    | |- exists _ _, (((?P ++ _) ++ _) ++ _) = _ =>
        exists (P ++ "</Nonce>" ++ LF ++ "    " ++ TAB ++ TAB),
               (LF ++ TAB ++ TAB ++ "</UsernameToken>" ++ LF ++ TAB ++ "</Security>")
    end.
    repeat rewrite append_assoc. reflexivity.
  - intros HU. apply nonempty_true in HU.
    pose proof (createRequest_token RFC3339_noSpace soap env HU) as E.
    cbv zeta in E.
    replace (if negb (time.IsZero (CameraTime soap)) then _ else _)
      with created in E
      by (unfold created, base; now destruct (time.IsZero (CameraTime soap))).
    set (digest := base64.EncodeToString (sha1.Sum _)) in E.
    set (nonce64 := base64.EncodeToString (uuid_New env)) in E.
    exists digest, nonce64. exact E.
Qed.

(** C5. For every descriptor, the Header block is there when the action
    or the username is not empty; it holds the Action element, in the
    WS-Addressing namespace and marked mustUnderstand, exactly when the
    action is not empty, and the Security element exactly when the
    username is not empty, the Action element first.  The Action element
    holds the action as cleaning leaves it: the action itself when it
    has no white space, as a URI has none. *)
Theorem header_action_before_security (soap : SOAP) (env : Env) :
  (exists digest nonce64 created,
     createRequest soap env
     = clean (wire.open (XMLNs soap))
       ++ (if nonempty (Action soap) || nonempty (User soap) then
             "<s:Header>"
             ++ (if nonempty (Action soap)
                 then wire.Action (cleanText (Action soap)) else "")
             ++ (if nonempty (User soap)
                 then wire.Security (cleanText (User soap)) digest nonce64 created
                 else "")
             ++ "</s:Header>"
           else "")
       ++ wire.Body (cleanText (Body soap)) ++ "</s:Envelope>")
  /\ (noSpace (Action soap) = true -> cleanText (Action soap) = Action soap).
Proof.
  split; [|apply pieceFacts.cleanText_noSpace].
  destruct (nonempty (User soap)) eqn:HU.
  - pose proof (createRequest_token RFC3339_noSpace soap env HU) as E.
    cbv zeta in E.
    set (created := if negb _ then _ else _) in E.
    set (digest := base64.EncodeToString (sha1.Sum _)) in E.
    set (nonce64 := base64.EncodeToString (uuid_New env)) in E.
    clearbody digest nonce64 created.
    exists digest, nonce64, created. rewrite E, orb_true_r. cbv iota.
    repeat rewrite append_assoc. reflexivity.
  - pose proof (createRequest_anonymous soap env HU) as E.
    rewrite orb_false_r. exists "", "", "". rewrite E.
    destruct (nonempty (Action soap)); cbv iota;
      repeat rewrite append_assoc; reflexivity.
Qed.

End Envelope.

(* ================================================================= *)
(** ** The request dispatcher *)

Section Dispatcher.

Context {tm : time.Pkg}.

Lemma run_bind {R A : Type} (m : Exec R A) (k : A -> Exec R R) :
  snd (run (bind m k))
  = match snd m with
    | Return r => r
    | Next a => snd (run (k a))
    end.
Proof.
  destruct m as [t [r|a]]; [reflexivity|]. cbn [bind snd].
  destruct (k a) as [t' [r|a']]; reflexivity.
Qed.

Lemma run_defer {R : Type} (e : Event) (body : Exec R R) :
  snd (run (defer e body)) = snd (run body).
Proof. destruct body as [t [r|a]]; reflexivity. Qed.

Lemma snd_when {R : Type} (b : bool) (e : Event) :
  snd (when b (emit e) : Exec R unit) = Next tt.
Proof. now destruct b. Qed.

(** The values returned by [SendRequest], stage by stage. *)
Lemma SendRequest_result (w : World) (env : Env) (soap : SOAP) (xaddr : string) :
  snd (SendRequest w env soap xaddr)
  = match url_Parse w xaddr with
    | Err err => (None, Some err)
    | Ok urlXAddr =>
        let urlXAddr :=
          if nonempty (User soap)
          then url.setUser urlXAddr (url.UserPassword (User soap) (Password soap))
          else urlXAddr in
        match http_NewRequest w "POST" (url_String w urlXAddr) (createRequest soap env) with
        | Err err => (None, Some err)
        | Ok req =>
            let req := http.setHeader req "Content-Type" "application/soap+xml" in
            let req := http.setHeader req "Charset" "utf-8" in
            match digest_RoundTrip w (User soap) (Password soap) req with
            | Err err => (None, Some err)
            | Ok resp =>
                match ioutil_ReadAll w resp with
                | Err err => (None, Some err)
                | Ok responseBody =>
                    match mxj_NewMapXml w responseBody with
                    | (_, Some err) => (None, Some err)
                    | (mapXML, None) =>
                        let fault12 :=
                          fst (mxj_ValueForPathString w mapXML
                                 "Envelope.Body.Fault.Reason.Text.#text") in
                        let fault11 :=
                          fst (mxj_ValueForPathString w mapXML
                                 "Envelope.Body.Fault.faultstring") in
                        if nonempty fault12 then (None, Some (errors.New fault12))
                        else if nonempty fault11 then (None, Some (errors.New fault11))
                        else (mapXML, None)
                    end
                end
            end
        end
    end.
Proof.
  unfold SendRequest. cbv zeta. rewrite run_bind.
  destruct (url_Parse w xaddr) as [urlXAddr|err]; [|reflexivity].
  cbn [check step snd]. rewrite run_bind, snd_when, run_bind. cbn [emit snd].
  rewrite run_bind.
  destruct (http_NewRequest w _ _ _) as [req|err]; [|reflexivity].
  cbn [check step snd]. rewrite run_bind. cbn [emit snd]. rewrite run_bind.
  destruct (digest_RoundTrip w _ _ _) as [resp|err]; [|reflexivity].
  cbn [check step snd]. rewrite run_defer, run_bind. cbn [emit snd].
  rewrite run_bind.
  destruct (ioutil_ReadAll w resp) as [responseBody|err]; [|reflexivity].
  cbn [check step snd]. rewrite run_bind, snd_when, run_bind.
  destruct (mxj_NewMapXml w responseBody) as [mapXML [err|]]; [reflexivity|].
  cbn [checkMap step snd].
  destruct (nonempty _); [reflexivity|].
  destruct (nonempty _); reflexivity.
Qed.

(** C8. For every descriptor and every address that [url.Parse]
    refuses, [SendRequest] returns the error of the parser and no tree,
    and nothing has happened by then: no HTTP request was made, none was
    sent, nothing was logged. *)
Theorem invalid_endpoint (w : World) (env : Env) (soap : SOAP) (xaddr : string)
        (err : error) :
  url_Parse w xaddr = Err err ->
  SendRequest w env soap xaddr = ([], (None, Some err)).
Proof. intros H. unfold SendRequest. rewrite H. reflexivity. Qed.

(** C9. Provided that the XML parser answers with a tree or with an
    error, [SendRequest] returns either a parsed tree and no error, or
    an error and no tree; never both, never neither. *)
Theorem one_tree_or_one_error (w : World) (env : Env) (soap : SOAP) (xaddr : string) :
  (forall doc, mxj_NewMapXml w doc <> (None, None)) ->
  (exists tree, snd (SendRequest w env soap xaddr) = (Some tree, None))
  \/ (exists err, snd (SendRequest w env soap xaddr) = (None, Some err)).
Proof.
  intros Hparser. rewrite SendRequest_result.
  destruct (url_Parse w xaddr) as [urlXAddr|err]; [|right; now exists err].
  cbv zeta.
  destruct (http_NewRequest w _ _ _) as [req|err]; [|right; now exists err].
  destruct (digest_RoundTrip w _ _ _) as [resp|err]; [|right; now exists err].
  destruct (ioutil_ReadAll w resp) as [responseBody|err]; [|right; now exists err].
  pose proof (Hparser responseBody) as Hp.
  destruct (mxj_NewMapXml w responseBody) as [mapXML [err|]];
    [right; now exists err|].
  destruct (nonempty _); [right; now eexists|].
  destruct (nonempty _); [right; now eexists|].
  destruct mapXML as [tree|]; [left; now exists tree | congruence].
Qed.

(** C3. When the response has been parsed into a tree, the text at
    [Envelope.Body.Fault.Reason.Text.#text] is looked at first: if it is
    not empty, [SendRequest] returns an error with exactly that text and
    no tree.  Otherwise the text at [Envelope.Body.Fault.faultstring]
    is looked at, with the same outcome when it is not empty.  When
    both are empty the tree is returned and no error.  So the SOAP 1.2
    text wins when both are there. *)
Theorem fault_classification (w : World) (env : Env) (soap : SOAP) (xaddr : string)
        (urlXAddr : url.URL) (req : http.Request) (resp : Response w)
        (responseBody : string) (mapXML : option (Map w)) :
  let target :=
    url_String w
      (if nonempty (User soap)
       then url.setUser urlXAddr (url.UserPassword (User soap) (Password soap))
       else urlXAddr) in
  let fault12 :=
    fst (mxj_ValueForPathString w mapXML "Envelope.Body.Fault.Reason.Text.#text") in
  let fault11 :=
    fst (mxj_ValueForPathString w mapXML "Envelope.Body.Fault.faultstring") in
  url_Parse w xaddr = Ok urlXAddr ->
  http_NewRequest w "POST" target (createRequest soap env) = Ok req ->
  digest_RoundTrip w (User soap) (Password soap)
    (http.setHeader (http.setHeader req "Content-Type" "application/soap+xml")
       "Charset" "utf-8")
  = Ok resp ->
  ioutil_ReadAll w resp = Ok responseBody ->
  mxj_NewMapXml w responseBody = (mapXML, None) ->
  (fault12 <> "" ->
   snd (SendRequest w env soap xaddr) = (None, Some (errors.New fault12)))
  /\ (fault12 = "" -> fault11 <> "" ->
      snd (SendRequest w env soap xaddr) = (None, Some (errors.New fault11)))
  /\ (fault12 = "" -> fault11 = "" ->
      snd (SendRequest w env soap xaddr) = (mapXML, None)).
Proof.
  intros target fault12 fault11 Hurl Hreq Hresp Hbody Hmap.
  rewrite SendRequest_result, Hurl. cbv zeta. fold target.
  rewrite Hreq, Hresp, Hbody, Hmap. fold fault12 fault11.
  repeat split.
  - intros H12. apply nonempty_true in H12. now rewrite H12.
  - intros H12 H11. apply nonempty_false in H12. apply nonempty_true in H11.
    now rewrite H12, H11.
  - intros H12 H11. apply nonempty_false in H12. apply nonempty_false in H11.
    now rewrite H12, H11.
Qed.

End Dispatcher.

(* ================================================================= *)
(** ** What cleaning keeps *)

Module stripFacts.
Import regexp regexpFacts cleanFacts.

Lemma strip_append (a b : string) : strip (a ++ b) = strip a ++ strip b.
Proof.
  induction a as [|c a IH]; [reflexivity|]. cbn [append strip].
  destruct (isSpace c); [exact IH | cbn [append]; now rewrite IH].
Qed.

Lemma strip_drop_spaces (s : string) : strip (drop (spaces s) s) = strip s.
Proof.
  induction s as [|c s IH]; [reflexivity|]. cbn [spaces strip].
  destruct (isSpace c) eqn:E; [exact IH|]. cbn [drop strip]. now rewrite E.
Qed.

Lemma drop_S (n : nat) (s : string) : drop (S n) s = drop 1 (drop n s).
Proof.
  revert s; induction n as [|n IH]; intros s.
  - now rewrite drop_0.
  - destruct s as [|c s]; [reflexivity|].
    change (drop (S (S n)) (String c s)) with (drop (S n) s).
    change (drop (S n) (String c s)) with (drop n s). apply IH.
Qed.

Lemma strip_collapse (s : string) (k : nat) :
  strip (replaceAll white " " k s) = strip (drop k s).
Proof.
  revert k; induction s as [|c s IH]; intros k; [now destruct k|].
  destruct k as [|k]; cbn [replaceAll drop]; [|apply IH].
  destruct (isSpace c) eqn:Ec.
  - rewrite (white_space _ _ Ec). cbn [append strip isSpace].
    now rewrite IH, strip_drop_spaces, Ec.
  - rewrite (white_other _ _ Ec). cbn [strip]. rewrite Ec, IH. now rewrite drop_0.
Qed.

Lemma strip_closeGaps (s : string) (k : nat) :
  strip (replaceAll tagGap "><" k s) = strip (drop k s).
Proof.
  revert k; induction s as [|c s IH]; intros k; [now destruct k|].
  destruct k as [|k]; cbn [replaceAll drop]; [|apply IH].
  destruct (tagGap (String c s)) as [[|n]|] eqn:E.
  - now apply tagGap_positive in E.
  - rewrite tagGap_spec in E.
    destruct (Ascii.eqb_spec c ">") as [->|]; [|discriminate].
    destruct (Nat.ltb 0 (spaces s)); [|discriminate].
    destruct (headIs "<" (drop (spaces s) s)) eqn:Eh; [|discriminate].
    injection E as <-. cbn [append strip isSpace]. rewrite IH.
    rewrite <- (strip_drop_spaces s), drop_S.
    unfold headIs in Eh. destruct (drop (spaces s) s) as [|x r]; [discriminate|].
    cbn [head] in Eh. apply Ascii.eqb_eq in Eh as ->.
    reflexivity.
  - cbn [strip]. rewrite IH, drop_0. reflexivity.
Qed.

(** Cleaning removes or replaces white space, and nothing else. *)
Lemma strip_clean (s : string) : strip (clean s) = strip s.
Proof.
  rewrite clean_spec. unfold ReplaceAllString.
  now rewrite strip_collapse, drop_0, strip_closeGaps, drop_0.
Qed.

Lemma length_replaceAll (re : Regexp) (repl : string) :
  bounded re ->
  (forall s n, re s = Some n -> String.length repl <= n) ->
  forall s k, String.length (replaceAll re repl k s) <= String.length s - k.
Proof.
  intros Hb Hr s; induction s as [|c s IH]; intros k; [simpl; lia|].
  destruct k as [|k]; cbn [replaceAll String.length]; [|apply IH].
  destruct (re (String c s)) as [[|n]|] eqn:E.
  - cbn [String.length]. specialize (IH 0). lia.
  - pose proof (Hb _ _ E) as B. pose proof (Hr _ _ E) as R.
    cbn [String.length] in B. rewrite length_append. specialize (IH n). lia.
  - cbn [String.length]. specialize (IH 0). lia.
Qed.

Lemma length_clean (s : string) : String.length (clean s) <= String.length s.
Proof.
  rewrite clean_spec. unfold ReplaceAllString.
  pose proof (length_replaceAll tagGap "><" tagGap_bounded) as G.
  pose proof (length_replaceAll white " " white_bounded) as W.
  assert (HG : forall s n, tagGap s = Some n -> String.length "><" <= n).
  { intros [|c t] n; [discriminate|]. rewrite tagGap_spec.
    destruct (_ && _ && _); [|discriminate]. intros [= <-]. simpl. lia. }
  assert (HW : forall s n, white s = Some n -> String.length " " <= n).
  { intros t n. unfold white. destruct (spaces t); [discriminate|].
    intros [= <-]. simpl. lia. }
  specialize (G HG s 0). specialize (W HW (replaceAll tagGap "><" 0 s) 0). lia.
Qed.

End stripFacts.

Module shapeFacts.
Import regexp regexpFacts cleanFacts containsFacts.

Lemma tidy_occurs (c : ascii) (s : string) :
  isSpace c = true -> c <> " "%char -> tidy s = true -> occurs c s = false.
Proof.
  intros Hc Hb. induction s as [|x s IH]; [reflexivity|]. cbn [tidy occurs].
  intros H. apply andb_prop in H as [Hx Hs]. rewrite (IH Hs), orb_false_r.
  destruct (Ascii.eqb_spec x c) as [->|]; [|reflexivity].
  rewrite Hc in Hx. apply andb_prop in Hx as [Hx _].
  apply Ascii.eqb_eq in Hx. congruence.
Qed.

Lemma tidy_blanks (s : string) : tidy s = true -> Contains s "  " = false.
Proof.
  induction s as [|x s IH]; [reflexivity|]. cbn [tidy]. intros H.
  apply andb_prop in H as [Hx Hs]. cbn [Contains]. rewrite (IH Hs), orb_false_r.
  rewrite prefix_cons.
  destruct (Ascii.eqb_spec " " x) as [<-|]; [|reflexivity].
  destruct s as [|y s]; [reflexivity|]. rewrite prefix_cons.
  destruct (Ascii.eqb_spec " " y) as [<-|]; [|reflexivity].
  discriminate.
Qed.

Lemma gapFree_gap (s : string) : gapFree s = true -> Contains s "> <" = false.
Proof.
  induction s as [|x s IH]; [reflexivity|]. cbn [gapFree].
  destruct (tagGap (String x s)) eqn:E; [discriminate|]. intros Hs.
  cbn [Contains]. rewrite (IH Hs), orb_false_r.
  rewrite prefix_cons.
  destruct (Ascii.eqb_spec ">" x) as [<-|]; [|reflexivity].
  destruct s as [|y s]; [reflexivity|]. rewrite prefix_cons.
  destruct (Ascii.eqb_spec " " y) as [<-|]; [|reflexivity].
  destruct s as [|z s]; [reflexivity|]. rewrite prefix_cons.
  destruct (Ascii.eqb_spec "<" z) as [<-|]; [|reflexivity].
  discriminate.
Qed.

(** The two literals that open the request are out of the reach of both
    replacements, whatever follows them. *)
Lemma clean_prolog (rest : string) :
  clean (wire.prolog ++ rest) = wire.prolog ++ clean rest.
Proof. rewrite !clean_spec. vm_compute. reflexivity. Qed.

Lemma gapFree_word (n r : string) :
  wordBytes n = true -> gapFree (n ++ r) = gapFree r.
Proof.
  induction n as [|c n IH]; [reflexivity|]. intros H.
  apply word_head in H as (_ & _ & Hgt & Hn).
  cbn [append gapFree]. rewrite tagGap_spec, Hgt. cbn [andb]. now apply IH.
Qed.

Lemma wordBytes_noSpace (n : string) : wordBytes n = true -> noSpace n = true.
Proof.
  induction n as [|c n IH]; [reflexivity|]. intros H.
  apply word_head in H as (Hs & _ & _ & Hn). cbn [noSpace]. now rewrite Hs, IH.
Qed.

Lemma tidy_noSpace (n r : string) : noSpace n = true -> tidy (n ++ r) = tidy r.
Proof.
  induction n as [|c n IH]; [reflexivity|]. cbn [noSpace]. intros H.
  apply andb_prop in H as [Hc Hn]. apply negb_true_iff in Hc.
  cbn [append tidy]. rewrite Hc. now apply IH.
Qed.

Lemma tidy_blank (s : string) :
  startsSpace s = false -> tidy (String " " s) = tidy s.
Proof. cbn [tidy]. now intros ->. Qed.

Lemma namespaces_shape (namespaces : list string) :
  Forall (fun namespace => word namespace = true) namespaces ->
  let declared :=
    fold_right (fun namespace rest => " " ++ namespace ++ rest) "" namespaces ++ ">" in
  gapFree declared = true /\ tidy declared = true.
Proof.
  induction 1 as [|n ns Hn _ [IHg IHt]]; [split; reflexivity|].
  unfold word in Hn. apply andb_prop in Hn as [Hne Hn].
  cbn [fold_right]. cbv zeta. rewrite !append_assoc. cbn [append]. split.
  - cbn [gapFree]. rewrite tagGap_space by reflexivity.
    now rewrite gapFree_word.
  - rewrite tidy_blank, (tidy_noSpace _ _ (wordBytes_noSpace _ Hn)); [exact IHt|].
    destruct n as [|c n]; [discriminate|]. now apply word_head in Hn as (Hs & _).
Qed.

Lemma clean_open (namespaces : list string) :
  Forall (fun namespace => word namespace = true) namespaces ->
  clean (wire.open namespaces) = wire.open namespaces.
Proof.
  intros H. apply namespaces_shape in H as [Hg Ht].
  unfold wire.open. rewrite <- append_assoc. fold wire.prolog.
  rewrite clean_prolog. f_equal. now apply clean_fixed.
Qed.

End shapeFacts.

Module marginFacts.
Import regexp regexpFacts cleanFacts pieceFacts stripFacts.

Lemma append_inj_last (c : ascii) (a b : string) :
  a ++ String c "" = b ++ String c "" -> a = b.
Proof.
  revert b; induction a as [|x a IH]; intros [|y b] H; cbn [append] in H.
  - reflexivity.
  - injection H as -> H. now destruct b.
  - injection H as -> H. now destruct a.
  - injection H as -> H. f_equal. now apply IH.
Qed.

Lemma strip_cleanText (s : string) : strip (cleanText s) = strip s.
Proof.
  pose proof (f_equal strip (cleanText_spec s)) as H.
  rewrite strip_clean, !strip_append in H. cbn [strip isSpace append] in H.
  injection H as H. symmetry. now apply append_inj_last in H.
Qed.

Lemma length_cleanText (s : string) :
  String.length (cleanText s) <= String.length s.
Proof.
  pose proof (length_clean (">" ++ s ++ "<")) as H.
  rewrite cleanText_spec in H. cbn [append String.length] in H.
  rewrite !length_append in H. simpl in H. lia.
Qed.

(** A string of white space only. *)
Lemma blank_spaces (ws : string) : strip ws = "" -> spaces ws = String.length ws.
Proof.
  induction ws as [|c ws IH]; [reflexivity|]. cbn [strip spaces String.length].
  destruct (isSpace c); [intros H; now rewrite IH | discriminate].
Qed.

Lemma tagGap_blank (ws rest : string) :
  strip ws = "" -> ws <> "" ->
  tagGap (String ">" (ws ++ String "<" rest)) = Some (S (S (String.length ws))).
Proof.
  intros Hws Hne. rewrite tagGap_spec.
  rewrite (spaces_append ws (String "<" rest) eq_refl), (blank_spaces _ Hws).
  rewrite drop_length_append.
  destruct ws as [|c ws]; [congruence | reflexivity].
Qed.

Lemma closeGaps_blank (ws rest : string) :
  strip ws = "" ->
  ReplaceAllString tagGap (String ">" (ws ++ String "<" rest)) "><"
  = "><" ++ ReplaceAllString tagGap rest "><".
Proof.
  intros Hws. destruct (string_dec ws "") as [->|Hne].
  - cbn [append]. rewrite Replace_copy by reflexivity.
    now rewrite Replace_copy by reflexivity.
  - rewrite (Replace_match _ _ _ _ _ (tagGap_blank ws rest Hws Hne)).
    now rewrite drop_S, drop_length_append.
Qed.

(** No match that starts in [a] reaches into a [b] that starts with
    a byte other than white space and [<]. *)
Lemma tagGap_stable_other (a b : string) :
  startsSpace b = false -> headIs "<" b = false -> stable tagGap a b.
Proof.
  intros Hs Hb. induction a as [|c a IH]; [exact I|]. split; [|exact IH].
  cbn [append]. rewrite !tagGap_spec, (spaces_append _ _ Hs).
  rewrite drop_append by apply spaces_le.
  destruct (drop (spaces a) a) as [|x r]; [|reflexivity].
  cbn [append]. rewrite Hb. now rewrite !andb_false_r.
Qed.

Lemma cleanText_blank (s : string) : strip s = "" -> cleanText s = "".
Proof.
  intros Hs. pose proof (strip_cleanText s) as Ht. rewrite Hs in Ht.
  destruct (clean_shape (">" ++ s ++ "<")) as [Hg _].
  rewrite cleanText_spec in Hg.
  destruct (string_dec (cleanText s) "") as [|Hne]; [assumption|].
  cbn [append gapFree] in Hg. now rewrite (tagGap_blank _ "" Ht Hne) in Hg.
Qed.

Lemma cleanText_trim (before after inner : string) :
  strip before = "" -> strip after = "" ->
  cleanText (before ++ String "<" (inner ++ String ">" after))
  = cleanText (String "<" (inner ++ ">")).
Proof.
  intros Hb Ha. unfold cleanText.
  assert (E : clean (">" ++ (before ++ String "<" (inner ++ String ">" after)) ++ "<")
              = clean (">" ++ String "<" (inner ++ ">") ++ "<")).
  { rewrite !clean_spec. f_equal.
    replace (">" ++ (before ++ String "<" (inner ++ String ">" after)) ++ "<")
      with (String ">" (before ++ String "<" (inner ++ String ">" (after ++ "<"))))
      by (cbn [append]; rewrite !append_assoc; cbn [append];
          now rewrite !append_assoc).
    replace (">" ++ String "<" (inner ++ ">") ++ "<")
      with (String ">" ("" ++ String "<" (inner ++ String ">" ("" ++ "<"))))
      by (cbn [append]; now rewrite !append_assoc).
    rewrite !closeGaps_blank by (assumption || reflexivity).
    rewrite !(Replace_append tagGap "><" inner)
      by (exact tagGap_bounded || now apply tagGap_stable_other).
    now rewrite !closeGaps_blank by (assumption || reflexivity). }
  now rewrite E.
Qed.

End marginFacts.

(* ================================================================= *)
(** ** More on the envelope builder *)

Section Builder.

Context {tm : time.Pkg}.

Lemma createRequest_uncleaned (soap : SOAP) (env : Env) :
  createRequest soap env = clean (uncleaned soap env).
Proof. reflexivity. Qed.

(** The request before cleaning: the open tag, then what starts with the
    [<] of the Header or of the Body block. *)
Lemma uncleaned_open (soap : SOAP) (env : Env) :
  exists blocks,
    uncleaned soap env = wire.open (XMLNs soap) ++ String "<" blocks.
Proof.
  unfold uncleaned. rewrite fold_namespaces. unfold wire.open.
  generalize (createUserToken soap env) as token. intros token.
  destruct (nonempty (Action soap)), (nonempty (User soap)); cbn [orb];
    eexists; repeat rewrite append_assoc; cbn [append]; reflexivity.
Qed.

Lemma createRequest_open (soap : SOAP) (env : Env) :
  exists blocks,
    createRequest soap env = clean (wire.open (XMLNs soap)) ++ String "<" blocks.
Proof.
  destruct (uncleaned_open soap env) as [blocks E].
  rewrite createRequest_uncleaned, E.
  rewrite cleanFacts.clean_append;
    [|apply pieceFacts.solid_open | reflexivity].
  pose proof (pieceFacts.clean_head (String "<" blocks) eq_refl) as H.
  destruct (clean (String "<" blocks)) as [|c rest]; [discriminate|].
  injection H as ->. now exists rest.
Qed.

(** The Body block at the end of the request. *)
Lemma createRequest_Body (soap : SOAP) (env : Env) :
  exists front,
    createRequest soap env
    = front ++ "<s:Body>" ++ cleanText (Body soap) ++ "</s:Body></s:Envelope>".
Proof.
  destruct (createRequest_body soap env) as [front E]. exists front.
  rewrite E. unfold wire.Body. now repeat rewrite append_assoc.
Qed.

(** X1. For every descriptor, the built envelope is one line of text:
    it holds no tab, line feed, form feed or carriage return, no two
    blanks in a row, and no blank between the [>] of one tag and the
    [<] of the next. *)
Theorem envelope_on_one_line (soap : SOAP) (env : Env) :
  (forall c : ascii,
     regexp.isSpace c = true -> c <> " "%char ->
     occurs c (createRequest soap env) = false)
  /\ Contains (createRequest soap env) "  " = false
  /\ Contains (createRequest soap env) "> <" = false.
Proof.
  rewrite createRequest_uncleaned.
  destruct (cleanFacts.clean_shape (uncleaned soap env)) as [Hg Ht].
  split; [|split].
  - intros c Hc Hb. now apply shapeFacts.tidy_occurs.
  - now apply shapeFacts.tidy_blanks.
  - now apply shapeFacts.gapFree_gap.
Qed.

(** X2. For every descriptor, with or without credentials, the built
    envelope starts with the XML declaration and the open tag of an
    envelope in the SOAP 1.2 namespace, as the source writes them:
    cleaning leaves these two literals alone whatever the caller
    supplies. *)
Theorem envelope_prolog (soap : SOAP) (env : Env) :
  exists rest,
    createRequest soap env
    = lit "<?xml version='1.0' encoding='UTF-8'?><s:Envelope xmlns:s='http://www.w3.org/2003/05/soap-envelope'"
      ++ rest.
Proof.
  destruct (createRequest_open soap env) as [blocks E]. rewrite E.
  unfold wire.open. rewrite <- (append_assoc (lit _) (lit _)). fold wire.prolog.
  rewrite shapeFacts.clean_prolog, append_assoc. now eexists.
Qed.

(** X3. When every namespace declaration of the descriptor is a word
    (not empty, without white space, [<] or [>]), the open tag of the
    built envelope lists the declarations as they were given, in their
    order, each after one blank, and the next block starts right after
    the [>] of the tag. *)
Theorem namespaces_verbatim (soap : SOAP) (env : Env) :
  Forall (fun namespace => word namespace = true) (XMLNs soap) ->
  exists blocks,
    createRequest soap env = wire.open (XMLNs soap) ++ String "<" blocks.
Proof.
  intros H. destruct (createRequest_open soap env) as [blocks E].
  exists blocks. now rewrite E, shapeFacts.clean_open.
Qed.

(** X4. Cleaning touches white space only: the built envelope and the
    request as it was concatenated have the same bytes other than white
    space, in the same order, and the built envelope is not longer. *)
Theorem cleaning_keeps_visible_bytes (soap : SOAP) (env : Env) :
  strip (createRequest soap env) = strip (uncleaned soap env)
  /\ String.length (createRequest soap env) <= String.length (uncleaned soap env).
Proof.
  rewrite createRequest_uncleaned.
  split; [apply stripFacts.strip_clean | apply stripFacts.length_clean].
Qed.

(** X5. The strings that the two replacements of [createRequest] leave
    unchanged are those without white space between a [>] and a [<] and
    whose white space is single blanks. *)
Theorem clean_fixed_points (s : string) :
  clean s = s <-> gapFree s = true /\ tidy s = true.
Proof.
  split.
  - intros <-. apply cleanFacts.clean_shape.
  - intros [Hg Ht]. now apply cleanFacts.clean_fixed.
Qed.

(** X6. For every descriptor, the text between the Body tags of the
    built envelope has the bytes of the body fragment of the caller
    other than white space, all of them and in their order, and is not
    longer than the fragment. *)
Theorem body_visible_bytes (soap : SOAP) (env : Env) :
  exists front text,
    createRequest soap env
    = front ++ "<s:Body>" ++ text ++ "</s:Body></s:Envelope>"
    /\ strip text = strip (Body soap)
    /\ String.length text <= String.length (Body soap).
Proof.
  destruct (createRequest_Body soap env) as [front E].
  exists front, (cleanText (Body soap)). split; [exact E|].
  split; [apply marginFacts.strip_cleanText | apply marginFacts.length_cleanText].
Qed.

(** X7. A body fragment that is empty or holds white space only gives
    an empty Body element. *)
Theorem blank_body (soap : SOAP) (env : Env) :
  strip (Body soap) = "" ->
  exists front,
    createRequest soap env = front ++ "<s:Body></s:Body></s:Envelope>".
Proof.
  intros H. destruct (createRequest_Body soap env) as [front E].
  exists front. now rewrite E, (marginFacts.cleanText_blank _ H).
Qed.

(** X8. White space around a body fragment that starts with [<] and
    ends with [>] is dropped: the Body element holds what it would hold
    for the fragment without these margins. *)
Theorem body_margins_trimmed (soap : SOAP) (env : Env) (before inner after : string) :
  strip before = "" -> strip after = "" ->
  Body soap = before ++ "<" ++ inner ++ ">" ++ after ->
  exists front,
    createRequest soap env
    = front ++ "<s:Body>" ++ cleanText ("<" ++ inner ++ ">")
      ++ "</s:Body></s:Envelope>".
Proof.
  intros Hb Ha HB. destruct (createRequest_Body soap env) as [front E].
  exists front. rewrite E, HB. cbn [append].
  now rewrite (marginFacts.cleanText_trim _ _ _ Hb Ha).
Qed.

(** X9. Without a username the credentials play no part: two
    descriptors with an empty username and the same body, namespaces
    and action give the same envelope, whatever their passwords, token
    ages, camera times and debug flags, and whatever the random source
    and the clock give. *)
Theorem credentials_need_username (soap1 soap2 : SOAP) (env1 env2 : Env) :
  User soap1 = "" -> User soap2 = "" ->
  Body soap1 = Body soap2 -> XMLNs soap1 = XMLNs soap2 -> Action soap1 = Action soap2 ->
  createRequest soap1 env1 = createRequest soap2 env2.
Proof.
  intros H1 H2 HB HN HA. apply nonempty_false in H1, H2.
  rewrite !createRequest_anonymous by assumption. now rewrite HB, HN, HA.
Qed.

End Builder.

(** X10. Cleaning works piece by piece: where a request is cut between
    two bytes that are not white space, the cleaned request is the
    cleaned first part followed by the cleaned second part, so that no
    text of the caller changes how the text around it is cleaned. *)
Theorem clean_distributes (a b : string) :
  endsSpace a = false -> startsSpace b = false ->
  clean (a ++ b) = clean a ++ clean b.
Proof. apply cleanFacts.clean_append. Qed.

(** X11. Cleaning brings no word into a request: a word (not empty,
    without white space, [<] or [>]) that does not occur in a string
    does not occur in the cleaned string. *)
Theorem clean_creates_no_word (w s : string) :
  word w = true -> Contains s w = false -> Contains (clean s) w = false.
Proof. apply containsFacts.Contains_clean. Qed.

(* ================================================================= *)
(** ** The texts of the token *)

Module tokenFacts.
Import base64.

Lemma length_text (p : list N) : String.length (sha1.text p) = List.length p.
Proof.
  unfold sha1.text. induction p as [|x p IH]; [reflexivity|].
  cbn [map string_of_list_ascii String.length List.length]. now rewrite IH.
Qed.

(** A SHA-1 checksum has 20 bytes. *)
Lemma length_Sum (data : string) : String.length (sha1.Sum data) = 20.
Proof.
  unfold sha1.Sum. cbv zeta.
  destruct (sha1.blocks _ _ _) as [[[[h0 h1] h2] h3] h4].
  rewrite length_text. unfold sha1.PutUint32.
  rewrite !length_app, !length_map. reflexivity.
Qed.

Lemma encode_alphabet (v : N) : occurs (encode v) (encodeStd ++ "=") = true.
Proof.
  unfold encode. generalize (N.to_nat v) as n. intros n.
  do 64 (destruct n as [|n]; [reflexivity|]). reflexivity.
Qed.

Lemma encode_sextet (v : N) : occurs (encode (N.land v 0x3F)) encodeStd = true.
Proof.
  assert (H : (N.to_nat (N.land v 0x3F) < 64)%nat).
  { change 0x3F%N with (N.ones 6). rewrite N.land_ones.
    pose proof (N.mod_lt v (2 ^ 6) ltac:(discriminate)) as L.
    change (2 ^ 6)%N with 64%N in *. lia. }
  unfold encode. revert H. generalize (N.to_nat (N.land v 0x3F)) as n. intros n H.
  do 64 (destruct n as [|n]; [reflexivity|]). lia.
Qed.

Lemma length_EncodeToString_aux (s : string) :
  let P := fun s => String.length (EncodeToString s) = 4 * ((String.length s + 2) / 3) in
  P s /\ (forall a, P (String a s)) /\ (forall a b, P (String a (String b s))).
Proof.
  cbv zeta. induction s as [|c s (IH0 & IH1 & IH2)].
  - repeat split; intros; reflexivity.
  - repeat split; intros; [apply IH1 | apply IH2|].
    cbn [EncodeToString String.length]. rewrite IH0.
    replace (S (S (S (String.length s))) + 2) with (String.length s + 2 + 1 * 3) by lia.
    rewrite Nat.div_add by discriminate. lia.
Qed.

Lemma alphabet_EncodeToString_aux (s : string) :
  let P := fun s => allIn (encodeStd ++ "=") (EncodeToString s) = true in
  P s /\ (forall a, P (String a s)) /\ (forall a b, P (String a (String b s))).
Proof.
  cbv zeta. induction s as [|c s (IH0 & IH1 & IH2)].
  - repeat split; intros; cbn [EncodeToString allIn];
      rewrite ?encode_alphabet; reflexivity.
  - repeat split; intros; [apply IH1 | apply IH2|].
    cbn [EncodeToString allIn]. rewrite !encode_alphabet. exact IH0.
Qed.

(** Whole groups of three bytes are encoded without padding. *)
Lemma unpadded_EncodeToString (n : nat) :
  forall s, String.length s = 3 * n -> allIn encodeStd (EncodeToString s) = true.
Proof.
  induction n as [|n IH]; intros s Hs.
  - destruct s; [reflexivity | discriminate].
  - destruct s as [|a [|b [|c s]]]; try (simpl in Hs; lia).
    cbn [EncodeToString allIn]. rewrite !encode_sextet. cbn [andb].
    apply IH. simpl in Hs. lia.
Qed.

End tokenFacts.

(** X12. Whatever the nonce, the timestamp and the password are, the
    text that [createUserToken] writes in Password has 28 characters:
    27 of the base64 alphabet, for the 20 bytes of a SHA-1 checksum, and
    one [=] of padding. *)
Theorem digest_text (token : string) :
  exists text,
    base64.EncodeToString (sha1.Sum token) = text ++ "="
    /\ String.length text = 27
    /\ allIn base64.encodeStd text = true.
Proof.
  pose proof (tokenFacts.length_Sum token) as H.
  revert H. generalize (sha1.Sum token) as sum. intros sum H.
  do 20 (destruct sum as [|? sum]; [discriminate|]).
  destruct sum; [|discriminate]. clear H.
  cbn [base64.EncodeToString].
  match goal with
  | |- exists _, ?encoded = _ /\ _ => exists (String.substring 0 27 encoded)
  end.
  cbn [String.substring].
  split; [reflexivity|]. split; [reflexivity|].
  cbn [allIn]. rewrite !tokenFacts.encode_sextet. reflexivity.
Qed.

(** X13. The base64 text that [createUserToken] writes for [n] bytes
    has four characters for every three bytes, the last group padded,
    all of them letters, digits, [+], [/] or the padding [=]; when [n]
    is a multiple of three, as the 36 characters of a UUID are, there
    is no padding. *)
Theorem base64_text (src : string) :
  String.length (base64.EncodeToString src) = 4 * ((String.length src + 2) / 3)
  /\ allIn (base64.encodeStd ++ "=") (base64.EncodeToString src) = true
  /\ (String.length src mod 3 = 0 ->
      allIn base64.encodeStd (base64.EncodeToString src) = true).
Proof.
  split; [apply tokenFacts.length_EncodeToString_aux|].
  split; [apply tokenFacts.alphabet_EncodeToString_aux|].
  intros H. apply (tokenFacts.unpadded_EncodeToString (String.length src / 3)).
  pose proof (Nat.div_mod_eq (String.length src) 3). lia.
Qed.

(* ================================================================= *)
(** ** The exchange with the camera *)

Section Exchange.

Context {tm : time.Pkg}.

(** The events of a call of [SendRequest], stage by stage. *)
Lemma SendRequest_trace (w : World) (env : Env) (soap : SOAP) (xaddr : string) :
  fst (SendRequest w env soap xaddr)
  = (match url_Parse w xaddr with
     | Err _ => []
     | Ok urlXAddr =>
         let urlXAddr :=
           if nonempty (User soap)
           then url.setUser urlXAddr (url.UserPassword (User soap) (Password soap))
           else urlXAddr in
         let target := url_String w urlXAddr in
         (if NoDebug soap then [] else [Log (createRequest soap env)])
         ++ NewRequest "POST" target
         :: match http_NewRequest w "POST" target (createRequest soap env) with
            | Err _ => []
            | Ok req =>
                let req := http.setHeader req "Content-Type" "application/soap+xml" in
                let req := http.setHeader req "Charset" "utf-8" in
                RoundTrip req
                :: match digest_RoundTrip w (User soap) (Password soap) req with
                   | Err _ => []
                   | Ok resp =>
                       ReadAll
                       :: match ioutil_ReadAll w resp with
                          | Err _ => []
                          | Ok responseBody =>
                              if NoDebug soap then []
                              else [Log ("Onvif response: " ++ responseBody)]
                          end
                          ++ [Close]
                   end
            end
     end)%list.
Proof.
  unfold SendRequest. cbv zeta.
  generalize (createRequest soap env) as request. intros request.
  destruct (url_Parse w xaddr) as [urlXAddr|err]; [|reflexivity].
  destruct (NoDebug soap);
    cbn [check step bind negb when emit app];
    set (target := url_String w _); clearbody target;
    (destruct (http_NewRequest w "POST" target request) as [req|err];
       [|reflexivity]);
    cbn [check step bind app];
    set (req' := http.setHeader (http.setHeader req _ _) _ _); clearbody req';
    (destruct (digest_RoundTrip w (User soap) (Password soap) req') as [resp|err];
       [|reflexivity]);
    cbn [check step bind app defer emit];
    (destruct (ioutil_ReadAll w resp) as [responseBody|err]; [|reflexivity]);
    cbn [check step bind app defer emit negb when];
    (destruct (mxj_NewMapXml w responseBody) as [mapXML [err|]]; [reflexivity|]);
    cbn [checkMap step bind app];
    (destruct (nonempty _); [reflexivity|]);
    destruct (nonempty _); reflexivity.
Qed.

Lemma http_NewRequest_Ok (w : World) (method target body : string)
      (req : http.Request) :
  http_NewRequest w method target body = Ok req ->
  req = {| http.Method := method; http.URL := target; http.Header_ := [];
           http.Body := body |}.
Proof.
  unfold http_NewRequest. destruct (url_Parse w target); [|discriminate].
  now intros [= <-].
Qed.

Lemma createRequest_withNoDebug (flag : bool) (soap : SOAP) (env : Env) :
  createRequest (withNoDebug flag soap) env = createRequest soap env.
Proof. reflexivity. Qed.

(** X14. A call of [SendRequest] makes at most one HTTP request and
    hands it to the Digest transport at most once.  Apart from the
    log, what it does is one of: nothing; making a POST request; making
    it and handing it to the transport; making it, handing it to the
    transport, reading the response and closing its body.  In the first
    three cases it returns an error and no tree. *)
Theorem at_most_one_exchange (w : World) (env : Env) (soap : SOAP) (xaddr : string) :
  let trace := network (fst (SendRequest w env soap xaddr)) in
  ((trace = []
    \/ (exists target, trace = [NewRequest "POST" target])
    \/ (exists target req, trace = [NewRequest "POST" target; RoundTrip req]))
   /\ exists err, snd (SendRequest w env soap xaddr) = (None, Some err))
  \/ (exists target req,
        trace = [NewRequest "POST" target; RoundTrip req; ReadAll; Close]).
Proof.
  cbv zeta. rewrite SendRequest_trace, SendRequest_result.
  destruct (url_Parse w xaddr) as [urlXAddr|err].
  2:{ left. split; [now left | now exists err]. }
  cbv zeta. set (target := url_String w _). clearbody target.
  destruct (http_NewRequest w "POST" target (createRequest soap env)) as [req|err].
  2:{ left. split; [|now exists err].
      right; left. exists target. now destruct (NoDebug soap). }
  set (req' := http.setHeader (http.setHeader req _ _) _ _). clearbody req'.
  destruct (digest_RoundTrip w (User soap) (Password soap) req') as [resp|err].
  2:{ left. split; [|now exists err].
      right; right. exists target, req'. now destruct (NoDebug soap). }
  right. exists target, req'.
  destruct (ioutil_ReadAll w resp); now destruct (NoDebug soap).
Qed.

(** X15. The request that [SendRequest] hands to the Digest transport
    is a POST of the built envelope, with the header fields
    Content-Type: application/soap+xml and Charset: utf-8 and no other,
    to the parsed address, which carries the username and the password
    of the descriptor as its user information when the username is not
    empty and is as it was parsed otherwise. *)
Theorem request_on_the_wire (w : World) (env : Env) (soap : SOAP) (xaddr : string)
        (urlXAddr : url.URL) (req : http.Request) :
  url_Parse w xaddr = Ok urlXAddr ->
  In (RoundTrip req) (fst (SendRequest w env soap xaddr)) ->
  req = {| http.Method := "POST";
           http.URL :=
             url_String w
               (if nonempty (User soap)
                then url.setUser urlXAddr
                       (url.UserPassword (User soap) (Password soap))
                else urlXAddr);
           http.Header_ :=
             [("Content-Type", "application/soap+xml"); ("Charset", "utf-8")];
           http.Body := createRequest soap env |}.
Proof.
  intros Hurl. rewrite SendRequest_trace, Hurl. cbv zeta.
  set (target := url_String w _).
  intros H. apply in_app_or in H as [H|H].
  { destruct (NoDebug soap); [easy|]. now destruct H as [H|[]]. }
  destruct H as [H|H]; [discriminate|].
  destruct (http_NewRequest w "POST" target (createRequest soap env)) as [req0|err] eqn:E;
    [|easy].
  apply http_NewRequest_Ok in E. subst req0.
  destruct H as [H|H]; [now injection H as <-|].
  destruct (digest_RoundTrip w _ _ _) as [resp|err]; [|easy].
  destruct H as [H|H]; [discriminate|].
  apply in_app_or in H as [H|H]; [|now destruct H as [H|[]]].
  destruct (ioutil_ReadAll w resp); [|easy].
  destruct (NoDebug soap); [easy|]. now destruct H as [H|[]].
Qed.

(** X16. When the transport fails, [SendRequest] returns the error of
    the transport and no tree; the request was made and sent, and
    nothing is read or closed, since there is no response. *)
Theorem transport_failure (w : World) (env : Env) (soap : SOAP) (xaddr : string)
        (urlXAddr : url.URL) (req : http.Request) (err : error) :
  let target :=
    url_String w
      (if nonempty (User soap)
       then url.setUser urlXAddr (url.UserPassword (User soap) (Password soap))
       else urlXAddr) in
  let req' :=
    http.setHeader (http.setHeader req "Content-Type" "application/soap+xml")
      "Charset" "utf-8" in
  url_Parse w xaddr = Ok urlXAddr ->
  http_NewRequest w "POST" target (createRequest soap env) = Ok req ->
  digest_RoundTrip w (User soap) (Password soap) req' = Err err ->
  snd (SendRequest w env soap xaddr) = (None, Some err)
  /\ network (fst (SendRequest w env soap xaddr))
     = [NewRequest "POST" target; RoundTrip req'].
Proof.
  intros target req' Hurl Hreq Hresp.
  rewrite SendRequest_trace, SendRequest_result, Hurl. cbv zeta.
  fold target. rewrite Hreq. fold req'. rewrite Hresp.
  split; [reflexivity | now destruct (NoDebug soap)].
Qed.

(** X17. Once the transport has given a response, its body is closed
    exactly once, after it was read and as the last thing that
    [SendRequest] does, whether reading, parsing or the camera fails or
    not. *)
Theorem response_always_closed (w : World) (env : Env) (soap : SOAP) (xaddr : string)
        (urlXAddr : url.URL) (req : http.Request) (resp : Response w) :
  let target :=
    url_String w
      (if nonempty (User soap)
       then url.setUser urlXAddr (url.UserPassword (User soap) (Password soap))
       else urlXAddr) in
  let req' :=
    http.setHeader (http.setHeader req "Content-Type" "application/soap+xml")
      "Charset" "utf-8" in
  url_Parse w xaddr = Ok urlXAddr ->
  http_NewRequest w "POST" target (createRequest soap env) = Ok req ->
  digest_RoundTrip w (User soap) (Password soap) req' = Ok resp ->
  exists before,
    fst (SendRequest w env soap xaddr) = (before ++ [Close])%list
    /\ In ReadAll before /\ ~ In Close before.
Proof.
  intros target req' Hurl Hreq Hresp.
  rewrite SendRequest_trace, Hurl. cbv zeta.
  fold target. rewrite Hreq. fold req'. rewrite Hresp.
  destruct (NoDebug soap); destruct (ioutil_ReadAll w resp) as [responseBody|err];
    cbn [app];
    match goal with
    | |- exists _, ?l = _ /\ _ => exists (removelast l)
    end;
    cbn [removelast app]; (split; [reflexivity|]); cbn [In];
    (split; [tauto|]); intros H;
    repeat (destruct H as [H|H]; [discriminate|]); exact H.
Qed.

(** X18. When the body of the response cannot be read, [SendRequest]
    returns the error of the reader and no tree; the body is closed all
    the same, and no response is logged. *)
Theorem read_failure (w : World) (env : Env) (soap : SOAP) (xaddr : string)
        (urlXAddr : url.URL) (req : http.Request) (resp : Response w) (err : error) :
  let target :=
    url_String w
      (if nonempty (User soap)
       then url.setUser urlXAddr (url.UserPassword (User soap) (Password soap))
       else urlXAddr) in
  let req' :=
    http.setHeader (http.setHeader req "Content-Type" "application/soap+xml")
      "Charset" "utf-8" in
  url_Parse w xaddr = Ok urlXAddr ->
  http_NewRequest w "POST" target (createRequest soap env) = Ok req ->
  digest_RoundTrip w (User soap) (Password soap) req' = Ok resp ->
  ioutil_ReadAll w resp = Err err ->
  snd (SendRequest w env soap xaddr) = (None, Some err)
  /\ fst (SendRequest w env soap xaddr)
     = ((if NoDebug soap then [] else [Log (createRequest soap env)])
        ++ [NewRequest "POST" target; RoundTrip req'; ReadAll; Close])%list.
Proof.
  intros target req' Hurl Hreq Hresp Hbody.
  rewrite SendRequest_trace, SendRequest_result, Hurl. cbv zeta.
  fold target. rewrite Hreq. fold req'. rewrite Hresp, Hbody.
  split; reflexivity.
Qed.

(** X19. When the XML parser reports an error for the body of the
    response, [SendRequest] returns that error and no tree, also when
    the parser gave a tree along with its error. *)
Theorem malformed_response (w : World) (env : Env) (soap : SOAP) (xaddr : string)
        (urlXAddr : url.URL) (req : http.Request) (resp : Response w)
        (responseBody : string) (partial : option (Map w)) (err : error) :
  let target :=
    url_String w
      (if nonempty (User soap)
       then url.setUser urlXAddr (url.UserPassword (User soap) (Password soap))
       else urlXAddr) in
  let req' :=
    http.setHeader (http.setHeader req "Content-Type" "application/soap+xml")
      "Charset" "utf-8" in
  url_Parse w xaddr = Ok urlXAddr ->
  http_NewRequest w "POST" target (createRequest soap env) = Ok req ->
  digest_RoundTrip w (User soap) (Password soap) req' = Ok resp ->
  ioutil_ReadAll w resp = Ok responseBody ->
  mxj_NewMapXml w responseBody = (partial, Some err) ->
  snd (SendRequest w env soap xaddr) = (None, Some err).
Proof.
  intros target req' Hurl Hreq Hresp Hbody Hmap.
  rewrite SendRequest_result, Hurl. cbv zeta.
  fold target. rewrite Hreq. fold req'. now rewrite Hresp, Hbody, Hmap.
Qed.

(** X20. When the response has been read, what [SendRequest] has done
    is, in this order: log the envelope, unless NoDebug is set; make the
    POST request; send it; read the body of the response; log the
    body after the words Onvif response, unless NoDebug is set; close
    the body.  The envelope is logged before anything is sent, and the
    order does not depend on what the response holds. *)
Theorem exchange_trace (w : World) (env : Env) (soap : SOAP) (xaddr : string)
        (urlXAddr : url.URL) (req : http.Request) (resp : Response w)
        (responseBody : string) :
  let target :=
    url_String w
      (if nonempty (User soap)
       then url.setUser urlXAddr (url.UserPassword (User soap) (Password soap))
       else urlXAddr) in
  let req' :=
    http.setHeader (http.setHeader req "Content-Type" "application/soap+xml")
      "Charset" "utf-8" in
  url_Parse w xaddr = Ok urlXAddr ->
  http_NewRequest w "POST" target (createRequest soap env) = Ok req ->
  digest_RoundTrip w (User soap) (Password soap) req' = Ok resp ->
  ioutil_ReadAll w resp = Ok responseBody ->
  fst (SendRequest w env soap xaddr)
  = ((if NoDebug soap then [] else [Log (createRequest soap env)])
     ++ [NewRequest "POST" target; RoundTrip req'; ReadAll]
     ++ (if NoDebug soap then [] else [Log ("Onvif response: " ++ responseBody)])
     ++ [Close])%list.
Proof.
  intros target req' Hurl Hreq Hresp Hbody.
  rewrite SendRequest_trace, Hurl. cbv zeta.
  fold target. rewrite Hreq. fold req'. rewrite Hresp, Hbody.
  reflexivity.
Qed.

(** X21. The field NoDebug changes the log and nothing else: the values
    returned, the request made and sent, and what is read and closed
    are the same whatever the flag is, and with the flag set nothing is
    logged. *)
Theorem debug_only_logs (w : World) (env : Env) (soap : SOAP) (xaddr : string)
        (flag : bool) :
  snd (SendRequest w env (withNoDebug flag soap) xaddr)
  = snd (SendRequest w env soap xaddr)
  /\ network (fst (SendRequest w env (withNoDebug flag soap) xaddr))
     = network (fst (SendRequest w env soap xaddr))
  /\ logs (fst (SendRequest w env (withNoDebug true soap) xaddr)) = [].
Proof.
  rewrite !SendRequest_trace, !SendRequest_result, !createRequest_withNoDebug.
  cbn [withNoDebug User Password NoDebug].
  split; [reflexivity|].
  destruct (url_Parse w xaddr) as [urlXAddr|err]; [|now split].
  cbv zeta. set (target := url_String w _). clearbody target.
  destruct (http_NewRequest w "POST" target (createRequest soap env)) as [req|err].
  2:{ split; [now destruct flag, (NoDebug soap) | reflexivity]. }
  set (req' := http.setHeader (http.setHeader req _ _) _ _). clearbody req'.
  destruct (digest_RoundTrip w (User soap) (Password soap) req') as [resp|err].
  2:{ split; [now destruct flag, (NoDebug soap) | reflexivity]. }
  destruct (ioutil_ReadAll w resp);
    (split; [now destruct flag, (NoDebug soap) | reflexivity]).
Qed.

End Exchange.

(* ================================================================= *)
(** ** The program on concrete inputs *)

Example envelope_without_credentials :
  createRequest (Reference.anonymous "<GetDeviceInformation/>")
                (Reference.env (Reference.Unix 0))
  = lit "<?xml version='1.0' encoding='UTF-8'?><s:Envelope xmlns:s='http://www.w3.org/2003/05/soap-envelope'><s:Body><GetDeviceInformation/></s:Body></s:Envelope>".
Proof. vm_compute. reflexivity. Qed.

Example envelope_with_credentials :
  createRequest
    (Reference.admin "<tds:GetDeviceInformation/>" "" (Reference.Unix 1709210096))
    (Reference.env (Reference.Unix 0))
  = lit "<?xml version='1.0' encoding='UTF-8'?><s:Envelope xmlns:s='http://www.w3.org/2003/05/soap-envelope' xmlns:tds='http://www.onvif.org/ver10/device/wsdl'><s:Header><Security s:mustUnderstand='1' xmlns='http://docs.oasis-open.org/wss/2004/01/oasis-200401-wss-wssecurity-secext-1.0.xsd'><UsernameToken><Username>admin</Username><Password Type='http://docs.oasis-open.org/wss/2004/01/oasis-200401-wss-username-token-profile-1.0#PasswordDigest'>dWNi7KuxC9/pfUeeOwwPmbc6PUw=</Password><Nonce EncodingType='http://docs.oasis-open.org/wss/2004/01/oasis-200401-wss-soap-message-security-1.0#Base64Binary'>ZjQ3YWMxMGItNThjYy00MzcyLWE1NjctMGUwMmIyYzNkNDc5</Nonce><Created xmlns='http://docs.oasis-open.org/wss/2004/01/oasis-200401-wss-wssecurity-utility-1.0.xsd'>2024-02-29T12:34:56Z</Created></UsernameToken></Security></s:Header><s:Body><tds:GetDeviceInformation/></s:Body></s:Envelope>".
Proof. vm_compute. reflexivity. Qed.

(** With a username the envelope depends on the clock. *)
Example token_depends_on_clock :
  createRequest (Reference.admin "<a/>" "" Reference.zeroTime)
                (Reference.env (Reference.Unix 0))
  <> createRequest (Reference.admin "<a/>" "" Reference.zeroTime)
                   (Reference.env (Reference.Unix 1)).
Proof. vm_compute. discriminate. Qed.

Example only_soap12_fault :
  snd (SendRequest (Reference.camera Reference.answers "<fault12/>")
         (Reference.env (Reference.Unix 0))
         (Reference.admin "<tds:GetDeviceInformation/>" "" Reference.zeroTime)
         "http://192.168.0.10/onvif/device_service")
  = (None, Some (errors.New "Sender not Authorized")).
Proof. vm_compute. reflexivity. Qed.

Example only_soap11_fault :
  snd (SendRequest (Reference.camera Reference.answers "<fault11/>")
         (Reference.env (Reference.Unix 0))
         (Reference.admin "<tds:GetDeviceInformation/>" "" Reference.zeroTime)
         "http://192.168.0.10/onvif/device_service")
  = (None, Some (errors.New "NotAuthorized")).
Proof. vm_compute. reflexivity. Qed.

Example no_fault :
  snd (SendRequest (Reference.camera Reference.answers "<information/>")
         (Reference.env (Reference.Unix 0))
         (Reference.admin "<tds:GetDeviceInformation/>" "" Reference.zeroTime)
         "http://192.168.0.10/onvif/device_service")
  = (Some Reference.information, None).
Proof. vm_compute. reflexivity. Qed.

Example cleanText_runs : cleanText "Front  Door" = "Front Door".
Proof. vm_compute. reflexivity. Qed.

Example cleanText_margins : cleanText (" <a/>" ++ LF) = "<a/>".
Proof. vm_compute. reflexivity. Qed.

(* ================================================================= *)
(** ** The theorems at concrete inputs *)

(** C7 as the specification words it fails: a body fragment whose text
    holds two blanks in a row does not stand byte for byte between the
    Body tags of the built envelope. *)
Lemma body_not_verbatim :
  ~ (exists front back,
       createRequest (Reference.anonymous "<Name>Front  Door</Name>")
                     (Reference.env (Reference.Unix 0))
       = front ++ "<s:Body>" ++ "<Name>Front  Door</Name>" ++ "</s:Body>" ++ back).
Proof.
  intros (front & back & H).
  assert (C : Contains
                (createRequest (Reference.anonymous "<Name>Front  Door</Name>")
                               (Reference.env (Reference.Unix 0)))
                "<s:Body><Name>Front  Door</Name></s:Body>" = true).
  { rewrite H.
    exact (Contains_append front "<s:Body><Name>Front  Door</Name></s:Body>" back). }
  vm_compute in C. discriminate C.
Qed.

Lemma body_between_tags_witness :
  noSpace (Body (Reference.anonymous "<GetDeviceInformation/>")) = true
  /\ cleanText (Body (Reference.anonymous "<GetDeviceInformation/>"))
     = "<GetDeviceInformation/>".
Proof.
  split; [reflexivity|].
  exact (proj2 (proj2 (body_between_tags
                         (Reference.anonymous "<GetDeviceInformation/>")
                         (Reference.env (Reference.Unix 0)))) eq_refl).
Defined.

Lemma anonymous_envelope_witness :
  User (Reference.anonymous "<GetDeviceInformation/>") = ""
  /\ createRequest (Reference.anonymous "<GetDeviceInformation/>")
                   (Reference.env (Reference.Unix 0))
     = clean (wire.open []) ++ wire.Body "<GetDeviceInformation/>" ++ "</s:Envelope>"
  /\ Contains (createRequest (Reference.anonymous "<GetDeviceInformation/>")
                             (Reference.env (Reference.Unix 0))) "Security" = false
  /\ Contains (createRequest (Reference.anonymous "<GetDeviceInformation/>")
                             (Reference.env (Reference.Unix 0))) "Header" = false.
Proof.
  split; [reflexivity|].
  destruct (anonymous_envelope (Reference.anonymous "<GetDeviceInformation/>")
              (Reference.env (Reference.Unix 0)) eq_refl) as (_ & E & S & H).
  exact (conj (E eq_refl) (conj (S eq_refl) (H eq_refl eq_refl))).
Defined.

Lemma anonymous_deterministic_witness :
  User (Reference.anonymous "<GetDeviceInformation/>") = ""
  /\ createRequest (Reference.anonymous "<GetDeviceInformation/>")
                   (Reference.env (Reference.Unix 0))
     = createRequest (Reference.anonymous "<GetDeviceInformation/>")
                     (Reference.env (Reference.Unix 1709210096)).
Proof.
  split; [reflexivity|].
  exact (anonymous_deterministic (Reference.anonymous "<GetDeviceInformation/>")
           (Reference.env (Reference.Unix 0))
           (Reference.env (Reference.Unix 1709210096)) eq_refl).
Defined.

Lemma digest_of_embedded_nonce_and_timestamp_witness :
  (forall t, noSpace (@time.Format Reference.clock t time.RFC3339) = true)
  /\ User (Reference.admin "<tds:GetDeviceInformation/>" "" (Reference.Unix 1709210096))
     <> ""
  /\ exists created,
       createRequest
         (Reference.admin "<tds:GetDeviceInformation/>" "" (Reference.Unix 1709210096))
         (Reference.env (Reference.Unix 0))
       = clean (wire.open [lit "xmlns:tds='http://www.onvif.org/ver10/device/wsdl'"])
         ++ "<s:Header>" ++ ""
         ++ wire.Security "admin"
              (base64.EncodeToString
                 (sha1.Sum ("f47ac10b-58cc-4372-a567-0e02b2c3d479" ++ created ++ "pass")))
              (base64.EncodeToString "f47ac10b-58cc-4372-a567-0e02b2c3d479")
              created
         ++ "</s:Header>"
         ++ wire.Body "<tds:GetDeviceInformation/>" ++ "</s:Envelope>".
Proof.
  split; [exact ReferenceFacts.clock_noSpace|].
  split; [discriminate|].
  exact (digest_of_embedded_nonce_and_timestamp ReferenceFacts.clock_noSpace
           (Reference.admin "<tds:GetDeviceInformation/>" "" (Reference.Unix 1709210096))
           (Reference.env (Reference.Unix 0))
           (fun H => eq_ind "admin"
                       (fun s => match s with EmptyString => False | _ => True end)
                       I "" H)).
Defined.

Lemma created_is_asserted_time_witness :
  (forall t, noSpace (@time.Format Reference.clock t time.RFC3339) = true)
  /\ (exists before after,
        createUserToken Reference.getInformation (Reference.env (Reference.Unix 0))
        = before
          ++ lit "<Created xmlns='http://docs.oasis-open.org/wss/2004/01/oasis-200401-wss-wssecurity-utility-1.0.xsd'>"
          ++ "2024-02-29T12:34:56Z" ++ "</Created>" ++ after)
  /\ (User Reference.getInformation <> "" ->
      exists digest nonce64,
        createRequest Reference.getInformation (Reference.env (Reference.Unix 0))
        = clean (wire.open [lit "xmlns:tds='http://www.onvif.org/ver10/device/wsdl'"])
          ++ "<s:Header>" ++ ""
          ++ wire.Security "admin" digest nonce64 "2024-02-29T12:34:56Z"
          ++ "</s:Header>"
          ++ wire.Body "<tds:GetDeviceInformation/>" ++ "</s:Envelope>").
Proof.
  split; [exact ReferenceFacts.clock_noSpace|].
  exact (created_is_asserted_time ReferenceFacts.clock_noSpace
           Reference.getInformation (Reference.env (Reference.Unix 0))).
Defined.

Lemma header_action_before_security_witness :
  (forall t, noSpace (@time.Format Reference.clock t time.RFC3339) = true)
  /\ (exists digest nonce64 created,
        createRequest
          (Reference.admin "<tds:GetDeviceInformation/>"
             "http://www.onvif.org/ver10/device/wsdl/GetDeviceInformation"
             Reference.zeroTime)
          (Reference.env (Reference.Unix 0))
        = clean (wire.open [lit "xmlns:tds='http://www.onvif.org/ver10/device/wsdl'"])
          ++ ("<s:Header>"
              ++ wire.Action "http://www.onvif.org/ver10/device/wsdl/GetDeviceInformation"
              ++ wire.Security "admin" digest nonce64 created
              ++ "</s:Header>")
          ++ wire.Body "<tds:GetDeviceInformation/>" ++ "</s:Envelope>").
Proof.
  split; [exact ReferenceFacts.clock_noSpace|].
  exact (proj1 (header_action_before_security ReferenceFacts.clock_noSpace
                  (Reference.admin "<tds:GetDeviceInformation/>"
                     "http://www.onvif.org/ver10/device/wsdl/GetDeviceInformation"
                     Reference.zeroTime)
                  (Reference.env (Reference.Unix 0)))).
Defined.

Lemma invalid_endpoint_witness :
  url_Parse (Reference.camera Reference.answers "<information/>")
            ("http://192.168.0.10/" ++ LF)
  = Err (mkError ("parse " ++ "http://192.168.0.10/" ++ LF
                    ++ ": net/url: invalid control character in URL"))
  /\ SendRequest (Reference.camera Reference.answers "<information/>")
       (Reference.env (Reference.Unix 0)) Reference.getInformation
       ("http://192.168.0.10/" ++ LF)
     = ([], (None,
             Some (mkError ("parse " ++ "http://192.168.0.10/" ++ LF
                              ++ ": net/url: invalid control character in URL")))).
Proof.
  split; [reflexivity|].
  exact (invalid_endpoint (Reference.camera Reference.answers "<information/>")
           (Reference.env (Reference.Unix 0)) Reference.getInformation
           ("http://192.168.0.10/" ++ LF) _ eq_refl).
Defined.

Lemma one_tree_or_one_error_witness :
  (forall doc,
     mxj_NewMapXml (Reference.camera Reference.answers "<information/>") doc
     <> (None, None))
  /\ ((exists tree,
         snd (SendRequest (Reference.camera Reference.answers "<information/>")
                (Reference.env (Reference.Unix 0)) Reference.getInformation
                Reference.address)
         = (Some tree, None))
      \/ (exists err,
            snd (SendRequest (Reference.camera Reference.answers "<information/>")
                   (Reference.env (Reference.Unix 0)) Reference.getInformation
                   Reference.address)
            = (None, Some err))).
Proof.
  split; [exact (ReferenceFacts.camera_parser Reference.answers "<information/>")|].
  exact (one_tree_or_one_error (Reference.camera Reference.answers "<information/>")
           (Reference.env (Reference.Unix 0)) Reference.getInformation
           Reference.address
           (ReferenceFacts.camera_parser Reference.answers "<information/>")).
Defined.

Lemma fault_classification_witness :
  url_Parse (Reference.camera Reference.answers "<fault12/>") Reference.address
  = Reference.parse Reference.address
  /\ mxj_NewMapXml (Reference.camera Reference.answers "<fault12/>") "<fault12/>"
     = (Some Reference.fault12, None)
  /\ "Sender not Authorized" <> ""
  /\ snd (SendRequest (Reference.camera Reference.answers "<fault12/>")
            (Reference.env (Reference.Unix 0)) Reference.getInformation
            Reference.address)
     = (None, Some (errors.New "Sender not Authorized")).
Proof.
  split; [reflexivity|]. split; [reflexivity|]. split; [discriminate|].
  refine (proj1 (fault_classification
                   (Reference.camera Reference.answers "<fault12/>")
                   (Reference.env (Reference.Unix 0)) Reference.getInformation
                   Reference.address
                   {| url.Scheme := ""; url.User := None; url.Host := "";
                      url.Path := Reference.address; url.RawQuery := "";
                      url.Fragment := "" |}
                   {| http.Method := "POST"; http.URL := Reference.address;
                      http.Header_ := [];
                      http.Body :=
                        createRequest Reference.getInformation
                          (Reference.env (Reference.Unix 0)) |}
                   "<fault12/>" "<fault12/>" (Some Reference.fault12)
                   eq_refl eq_refl eq_refl eq_refl eq_refl) _).
  discriminate.
Defined.

(* ================================================================= *)
(** ** More theorems at concrete inputs *)

Lemma namespaces_verbatim_witness :
  Forall (fun namespace => word namespace = true) (XMLNs Reference.getInformation)
  /\ exists blocks,
       createRequest Reference.getInformation (Reference.env (Reference.Unix 0))
       = wire.open [lit "xmlns:tds='http://www.onvif.org/ver10/device/wsdl'"]
         ++ String "<" blocks.
Proof.
  assert (H : Forall (fun namespace => word namespace = true)
                (XMLNs Reference.getInformation))
    by (apply Forall_cons; [reflexivity | apply Forall_nil]).
  split; [exact H|].
  exact (namespaces_verbatim Reference.getInformation
           (Reference.env (Reference.Unix 0)) H).
Defined.

Lemma blank_body_witness :
  strip (Body (Reference.anonymous ("  " ++ LF))) = ""
  /\ exists front,
       createRequest (Reference.anonymous ("  " ++ LF))
                     (Reference.env (Reference.Unix 0))
       = front ++ "<s:Body></s:Body></s:Envelope>".
Proof.
  split; [reflexivity|].
  exact (blank_body (Reference.anonymous ("  " ++ LF))
           (Reference.env (Reference.Unix 0)) eq_refl).
Defined.

Lemma body_margins_trimmed_witness :
  strip (LF ++ "  ") = "" /\ strip LF = ""
  /\ Body (Reference.anonymous
             ((LF ++ "  ") ++ "<" ++ "GetDeviceInformation/" ++ ">" ++ LF))
     = (LF ++ "  ") ++ "<" ++ "GetDeviceInformation/" ++ ">" ++ LF
  /\ exists front,
       createRequest
         (Reference.anonymous
            ((LF ++ "  ") ++ "<" ++ "GetDeviceInformation/" ++ ">" ++ LF))
         (Reference.env (Reference.Unix 0))
       = front ++ "<s:Body>" ++ cleanText ("<" ++ "GetDeviceInformation/" ++ ">")
         ++ "</s:Body></s:Envelope>".
Proof.
  split; [reflexivity|]. split; [reflexivity|]. split; [reflexivity|].
  exact (body_margins_trimmed
           (Reference.anonymous
              ((LF ++ "  ") ++ "<" ++ "GetDeviceInformation/" ++ ">" ++ LF))
           (Reference.env (Reference.Unix 0))
           (LF ++ "  ") "GetDeviceInformation/" LF eq_refl eq_refl eq_refl).
Defined.

Lemma credentials_need_username_witness :
  User (Reference.anonymous "<GetDeviceInformation/>") = ""
  /\ User (@Build_SOAP Reference.clock "<GetDeviceInformation/>" [] "" "secret"
             5000000000%Z "" false (Reference.Unix 1709210096)) = ""
  /\ createRequest (Reference.anonymous "<GetDeviceInformation/>")
                   (Reference.env (Reference.Unix 0))
     = createRequest
         (@Build_SOAP Reference.clock "<GetDeviceInformation/>" [] "" "secret"
            5000000000%Z "" false (Reference.Unix 1709210096))
         (Reference.env (Reference.Unix 1709210096)).
Proof.
  split; [reflexivity|]. split; [reflexivity|].
  exact (credentials_need_username
           (Reference.anonymous "<GetDeviceInformation/>")
           (@Build_SOAP Reference.clock "<GetDeviceInformation/>" [] "" "secret"
              5000000000%Z "" false (Reference.Unix 1709210096))
           (Reference.env (Reference.Unix 0))
           (Reference.env (Reference.Unix 1709210096))
           eq_refl eq_refl eq_refl eq_refl eq_refl).
Defined.

Lemma base64_text_witness :
  String.length (uuid_New (Reference.env (Reference.Unix 0))) mod 3 = 0
  /\ allIn base64.encodeStd
       (base64.EncodeToString (uuid_New (Reference.env (Reference.Unix 0))))
     = true.
Proof.
  split; [reflexivity|].
  exact (proj2 (proj2 (base64_text (uuid_New (Reference.env (Reference.Unix 0)))))
           eq_refl).
Defined.

Lemma request_on_the_wire_witness :
  url_Parse (Reference.camera Reference.answers "<information/>") Reference.address
  = Ok Reference.endpoint
  /\ In (RoundTrip
           {| http.Method := "POST"; http.URL := Reference.address;
              http.Header_ :=
                [("Content-Type", "application/soap+xml"); ("Charset", "utf-8")];
              http.Body :=
                createRequest (Reference.anonymous "<GetDeviceInformation/>")
                  (Reference.env (Reference.Unix 0)) |})
        (fst (SendRequest (Reference.camera Reference.answers "<information/>")
                (Reference.env (Reference.Unix 0)) (Reference.anonymous "<GetDeviceInformation/>")
                Reference.address))
  /\ {| http.Method := "POST"; http.URL := Reference.address;
        http.Header_ :=
          [("Content-Type", "application/soap+xml"); ("Charset", "utf-8")];
        http.Body :=
          createRequest (Reference.anonymous "<GetDeviceInformation/>") (Reference.env (Reference.Unix 0)) |}
     = {| http.Method := "POST";
          http.URL :=
            url.Path Reference.endpoint;
          http.Header_ :=
            [("Content-Type", "application/soap+xml"); ("Charset", "utf-8")];
          http.Body :=
            createRequest (Reference.anonymous "<GetDeviceInformation/>") (Reference.env (Reference.Unix 0)) |}.
Proof.
  assert (H : In (RoundTrip
                    {| http.Method := "POST"; http.URL := Reference.address;
                       http.Header_ :=
                         [("Content-Type", "application/soap+xml");
                          ("Charset", "utf-8")];
                       http.Body :=
                         createRequest (Reference.anonymous "<GetDeviceInformation/>")
                           (Reference.env (Reference.Unix 0)) |})
                (fst (SendRequest
                        (Reference.camera Reference.answers "<information/>")
                        (Reference.env (Reference.Unix 0)) (Reference.anonymous "<GetDeviceInformation/>")
                        Reference.address)))
    by (right; left; reflexivity).
  split; [reflexivity|]. split; [exact H|].
  exact (request_on_the_wire
           (Reference.camera Reference.answers "<information/>")
           (Reference.env (Reference.Unix 0)) (Reference.anonymous "<GetDeviceInformation/>")
           Reference.address Reference.endpoint _ eq_refl H).
Defined.

Lemma transport_failure_witness :
  url_Parse Reference.unreachable Reference.address = Ok Reference.endpoint
  /\ (forall user password req,
        digest_RoundTrip Reference.unreachable user password req
        = Err (mkError "dial tcp 192.168.0.10:80: i/o timeout"))
  /\ snd (SendRequest Reference.unreachable (Reference.env (Reference.Unix 0))
            (Reference.anonymous "<GetDeviceInformation/>") Reference.address)
     = (None, Some (mkError "dial tcp 192.168.0.10:80: i/o timeout")).
Proof.
  split; [reflexivity|]. split; [reflexivity|].
  exact (proj1 (transport_failure Reference.unreachable
                  (Reference.env (Reference.Unix 0))
                  (Reference.anonymous "<GetDeviceInformation/>") Reference.address Reference.endpoint
                  {| http.Method := "POST"; http.URL := Reference.address;
              http.Header_ := [];
              http.Body :=
                createRequest (Reference.anonymous "<GetDeviceInformation/>")
                  (Reference.env (Reference.Unix 0)) |}
                  (mkError "dial tcp 192.168.0.10:80: i/o timeout")
                  eq_refl eq_refl eq_refl)).
Defined.

Lemma response_always_closed_witness :
  url_Parse (Reference.camera Reference.answers "<fault11/>") Reference.address
  = Ok Reference.endpoint
  /\ (forall user password req,
        digest_RoundTrip (Reference.camera Reference.answers "<fault11/>")
          user password req
        = Ok "<fault11/>")
  /\ exists before,
       fst (SendRequest (Reference.camera Reference.answers "<fault11/>")
              (Reference.env (Reference.Unix 0))
              (Reference.anonymous "<GetDeviceInformation/>") Reference.address)
       = (before ++ [Close])%list
       /\ In ReadAll before /\ ~ In Close before.
Proof.
  split; [reflexivity|]. split; [reflexivity|].
  exact (response_always_closed
           (Reference.camera Reference.answers "<fault11/>")
           (Reference.env (Reference.Unix 0))
           (Reference.anonymous "<GetDeviceInformation/>") Reference.address Reference.endpoint
           {| http.Method := "POST"; http.URL := Reference.address;
              http.Header_ := [];
              http.Body :=
                createRequest (Reference.anonymous "<GetDeviceInformation/>")
                  (Reference.env (Reference.Unix 0)) |}
           "<fault11/>" eq_refl eq_refl eq_refl).
Defined.

Lemma read_failure_witness :
  url_Parse Reference.interrupted Reference.address = Ok Reference.endpoint
  /\ ioutil_ReadAll Reference.interrupted "" = Err (mkError "unexpected EOF")
  /\ snd (SendRequest Reference.interrupted (Reference.env (Reference.Unix 0))
            (Reference.anonymous "<GetDeviceInformation/>") Reference.address)
     = (None, Some (mkError "unexpected EOF")).
Proof.
  split; [reflexivity|]. split; [reflexivity|].
  exact (proj1 (read_failure Reference.interrupted
                  (Reference.env (Reference.Unix 0))
                  (Reference.anonymous "<GetDeviceInformation/>") Reference.address Reference.endpoint
                  {| http.Method := "POST"; http.URL := Reference.address;
              http.Header_ := [];
              http.Body :=
                createRequest (Reference.anonymous "<GetDeviceInformation/>")
                  (Reference.env (Reference.Unix 0)) |}
                  "" (mkError "unexpected EOF")
                  eq_refl eq_refl eq_refl eq_refl)).
Defined.

Lemma malformed_response_witness :
  url_Parse (Reference.camera Reference.answers "<html>") Reference.address
  = Ok Reference.endpoint
  /\ mxj_NewMapXml (Reference.camera Reference.answers "<html>") "<html>"
     = (None, Some (mkError "xml.Decoder.Token() - XML syntax error"))
  /\ snd (SendRequest (Reference.camera Reference.answers "<html>")
            (Reference.env (Reference.Unix 0))
            (Reference.anonymous "<GetDeviceInformation/>") Reference.address)
     = (None, Some (mkError "xml.Decoder.Token() - XML syntax error")).
Proof.
  split; [reflexivity|]. split; [reflexivity|].
  exact (malformed_response (Reference.camera Reference.answers "<html>")
           (Reference.env (Reference.Unix 0))
           (Reference.anonymous "<GetDeviceInformation/>") Reference.address Reference.endpoint
           {| http.Method := "POST"; http.URL := Reference.address;
              http.Header_ := [];
              http.Body :=
                createRequest (Reference.anonymous "<GetDeviceInformation/>")
                  (Reference.env (Reference.Unix 0)) |}
           "<html>" "<html>" None
           (mkError "xml.Decoder.Token() - XML syntax error")
           eq_refl eq_refl eq_refl eq_refl eq_refl).
Defined.

Lemma exchange_trace_witness :
  url_Parse (Reference.camera Reference.answers "<information/>") Reference.address
  = Ok Reference.endpoint
  /\ ioutil_ReadAll (Reference.camera Reference.answers "<information/>")
       "<information/>"
     = Ok "<information/>"
  /\ List.length
       (fst (SendRequest (Reference.camera Reference.answers "<information/>")
               (Reference.env (Reference.Unix 0))
               (withNoDebug false (Reference.anonymous "<GetDeviceInformation/>"))
               Reference.address))
     = 6
  /\ nth_error
       (fst (SendRequest (Reference.camera Reference.answers "<information/>")
               (Reference.env (Reference.Unix 0))
               (withNoDebug false (Reference.anonymous "<GetDeviceInformation/>"))
               Reference.address)) 4
     = Some (Log ("Onvif response: " ++ "<information/>")).
Proof.
  split; [reflexivity|]. split; [reflexivity|].
  rewrite (exchange_trace (Reference.camera Reference.answers "<information/>")
             (Reference.env (Reference.Unix 0))
             (withNoDebug false (Reference.anonymous "<GetDeviceInformation/>"))
             Reference.address Reference.endpoint
             {| http.Method := "POST"; http.URL := Reference.address;
              http.Header_ := [];
              http.Body :=
                createRequest
                  (withNoDebug false (Reference.anonymous "<GetDeviceInformation/>"))
                  (Reference.env (Reference.Unix 0)) |}
             "<information/>" "<information/>" eq_refl eq_refl eq_refl eq_refl).
  split; reflexivity.
Defined.

Lemma clean_distributes_witness :
  endsSpace ("<a>" ++ LF ++ "<b>") = false
  /\ startsSpace "<c>  text</c>" = false
  /\ clean (("<a>" ++ LF ++ "<b>") ++ "<c>  text</c>")
     = clean ("<a>" ++ LF ++ "<b>") ++ clean "<c>  text</c>".
Proof.
  split; [reflexivity|]. split; [reflexivity|].
  exact (clean_distributes ("<a>" ++ LF ++ "<b>") "<c>  text</c>" eq_refl eq_refl).
Defined.

Lemma clean_creates_no_word_witness :
  word "Header" = true
  /\ Contains ("<Head>" ++ LF ++ "<er/>") "Header" = false
  /\ Contains (clean ("<Head>" ++ LF ++ "<er/>")) "Header" = false.
Proof.
  split; [reflexivity|]. split; [reflexivity|].
  exact (clean_creates_no_word "Header" ("<Head>" ++ LF ++ "<er/>") eq_refl eq_refl).
Defined.
